(** * MRPA: the recommendation-and-enrichment pipeline of [MRPA.py]

    A shallow embedding of [generate_recommendations], [direct_gemini_api_call],
    [fetch_imdb_info] and [NetworkWorker.run], together with the Python string
    methods they call, and the properties of the pipeline proved over it. *)

From Stdlib Require Import List ZArith NArith Lia Bool String Ascii.
From Stdlib Require Import Decimal DecimalString DecimalPos DecimalZ.
Import ListNotations.

Set Implicit Arguments.
Set Warnings "-notation-for-abbreviation".

(** ** Python strings

    A Python [str] is a sequence of Unicode code points.  The parser
    distinguishes U+00A0 and U+2022 from their UTF-8 bytes, so a string is
    modelled as the list of its code points. *)

Definition char := N.
Definition pystr := list char.

(** An ASCII literal as a Python string. *)
Definition lit (s : string) : pystr := map N_of_ascii (list_ascii_of_string s).

Definition NBSP : char := 160%N.    (* '\xa0' *)
Definition SPACE : char := 32%N.    (* ' ' *)
Definition BULLET : char := 8226%N. (* U+2022 *)
Definition DOT : char := 46%N.      (* '.' *)

Module Py.

Local Open Scope N_scope.

(** [str.isspace] on one code point (CPython's [_PyUnicode_IsWhitespace]). *)
Definition isspace (c : char) : bool :=
  ((9 <=? c) && (c <=? 13)) || ((28 <=? c) && (c <=? 32))
  || (c =? 133) || (c =? 160) || (c =? 5760)
  || ((8192 <=? c) && (c <=? 8202))
  || (c =? 8232) || (c =? 8233) || (c =? 8239) || (c =? 8287) || (c =? 12288).

(** Line boundaries of [str.splitlines] (CPython's [_PyUnicode_IsLinebreak]). *)
Definition is_linebreak (c : char) : bool :=
  ((10 <=? c) && (c <=? 13)) || ((28 <=? c) && (c <=? 30))
  || (c =? 133) || (c =? 8232) || (c =? 8233).

Definition str_eqb (a b : pystr) : bool :=
  if list_eq_dec N.eq_dec a b then true else false.

(** Truth value of a string: [bool(s)]. *)
Definition truthy_str (s : pystr) : bool :=
  match s with [] => false | _ :: _ => true end.

(** [s.lstrip()] *)
Fixpoint lstrip (s : pystr) : pystr :=
  match s with
  | [] => []
  | c :: t => if isspace c then lstrip t else s
  end.

(** [s.rstrip()] *)
Fixpoint rstrip (s : pystr) : pystr :=
  match s with
  | [] => []
  | c :: t =>
      match rstrip t with
      | [] => if isspace c then [] else [c]
      | r => c :: r
      end
  end.

(** [s.strip()] *)
Definition strip (s : pystr) : pystr := rstrip (lstrip s).

(** [s.startswith(p)] *)
Fixpoint startswith (s p : pystr) {struct p} : bool :=
  match p, s with
  | [], _ => true
  | _ :: _, [] => false
  | a :: p', b :: s' => (a =? b) && startswith s' p'
  end.

(** [s[n:]] *)
Definition slice_from (s : pystr) (n : nat) : pystr := skipn n s.

(** [s.replace(old, new)] for a one-character [old], which is what both
    call sites pass. *)
Definition replace (s : pystr) (old : char) (new : pystr) : pystr :=
  flat_map (fun c => if c =? old then new else [c]) s.

(** [s.splitlines()]: [cur] is the line being read, in order. *)
Fixpoint splitlines_from (cur s : pystr) : list pystr :=
  match s with
  | [] => match cur with [] => [] | _ :: _ => [cur] end
  | c :: rest =>
      if is_linebreak c then
        cur :: match rest with
               | c2 :: rest2 =>
                   if (c =? 13) && (c2 =? 10)
                   then splitlines_from [] rest2
                   else splitlines_from [] rest
               | [] => []
               end
      else splitlines_from (cur ++ [c]) rest
  end.

Definition splitlines (s : pystr) : list pystr := splitlines_from [] s.

(** [s.split(sep)] for a non-empty [sep]: [skip] counts the characters of
    a separator just matched that are still to be passed over, [cur] is
    the piece being read. *)
Fixpoint split_from (sep : pystr) (skip : nat) (cur s : pystr) : list pystr :=
  match s with
  | [] => [cur]
  | c :: rest =>
      match skip with
      | S k => split_from sep k cur rest
      | O =>
          if startswith s sep
          then cur :: split_from sep (List.length sep - 1) [] rest
          else split_from sep 0 (cur ++ [c]) rest
      end
  end.

Definition split (s sep : pystr) : list pystr := split_from sep 0 [] s.

(** [sep.join(parts)] *)
Fixpoint join (sep : pystr) (parts : list pystr) : pystr :=
  match parts with
  | [] => []
  | [p] => p
  | p :: ps => p ++ sep ++ join sep ps
  end.

(** [str(i)] for an [int]. *)
Definition str_int (i : Z) : pystr := lit (NilZero.string_of_int (Z.to_int i)).

(** [range(a, b)] *)
Definition range (a b : Z) : list Z :=
  map (fun k => (a + Z.of_nat k)%Z) (seq 0 (Z.to_nat (b - a))).

End Py.

(** ** Python values

    What [resp.json()] can return, and what the fields of an info dict hold.
    Numbers are Python [int]s; a dict keeps its entries as an association
    list that is read from the front. *)

#[warnings="-register-all"]
Inductive pyval : Type :=
| PNone
| PBool (b : bool)
| PInt (z : Z)
| PStr (s : pystr)
| PList (l : list pyval)
| PDict (d : list (pystr * pyval)).

(** Exceptions, all of them subclasses of [Exception]. [RequestsError] stands
    for whatever [requests] raises: a transport failure, [raise_for_status]
    on an error status, or [resp.json()] on a body that is not JSON. *)
Inductive exn : Type :=
| RuntimeError (msg : pystr)
| KeyError
| IndexError
| TypeError
| AttributeError
| RequestsError (msg : pystr).

Inductive result (A : Type) : Type :=
| Ok (a : A)
| Raise (e : exn).
Arguments Raise {A} e.

Definition rbind {A B} (r : result A) (k : A -> result B) : result B :=
  match r with
  | Ok a => k a
  | Raise e => Raise e
  end.

Declare Scope result_scope.
Delimit Scope result_scope with result.
Notation "x <- c ;; k" := (rbind c (fun x => k))
  (at level 61, c at next level, right associativity) : result_scope.

Module Value.

(** [bool(v)] *)
Definition truthy (v : pyval) : bool :=
  match v with
  | PNone => false
  | PBool b => b
  | PInt z => negb (z =? 0)%Z
  | PStr s => Py.truthy_str s
  | PList l => match l with [] => false | _ :: _ => true end
  | PDict d => match d with [] => false | _ :: _ => true end
  end.

(** [v == s] for a string [s]. *)
Definition eq_str (v : pyval) (s : pystr) : bool :=
  match v with
  | PStr s' => Py.str_eqb s' s
  | _ => false
  end.

(** [v in ids] for a list [ids] of strings. *)
Definition in_strs (v : pyval) (ids : list pystr) : bool :=
  existsb (eq_str v) ids.

Fixpoint lookup (d : list (pystr * pyval)) (k : pystr) : option pyval :=
  match d with
  | [] => None
  | (k', v) :: d' => if Py.str_eqb k' k then Some v else lookup d' k
  end.

(** The value of [d.get(k, default)] on a dict. *)
Definition field_or (d : list (pystr * pyval)) (k : pystr) (default : pyval) : pyval :=
  match lookup d k with Some x => x | None => default end.

(** [v.get(k, default)]; [v.get(k)] is [get v k PNone]. *)
Definition get (v : pyval) (k : pystr) (default : pyval) : result pyval :=
  match v with
  | PDict d => Ok (field_or d k default)
  | _ => Raise AttributeError
  end.

(** [v[k]] for a string key [k]. *)
Definition getitem_key (v : pyval) (k : pystr) : result pyval :=
  match v with
  | PDict d => match lookup d k with Some x => Ok x | None => Raise KeyError end
  | _ => Raise TypeError
  end.

(** [v[0]] *)
Definition getitem_0 (v : pyval) : result pyval :=
  match v with
  | PList l => match l with x :: _ => Ok x | [] => Raise IndexError end
  | PStr s => match s with c :: _ => Ok (PStr [c]) | [] => Raise IndexError end
  | PDict _ => Raise KeyError
  | _ => Raise TypeError
  end.

(** [v.split(sep)] *)
Definition split (v : pyval) (sep : pystr) : result (list pystr) :=
  match v with
  | PStr s => Ok (Py.split s sep)
  | _ => Raise AttributeError
  end.

(** [v.splitlines()] *)
Definition splitlines (v : pyval) : result (list pystr) :=
  match v with
  | PStr s => Ok (Py.splitlines s)
  | _ => Raise AttributeError
  end.

End Value.

(** ** Configuration globals *)

(** [MISSING_API_KEY] is [None]; a key is either that or the non-empty
    content of its key file. *)
Record config : Type := {
  GEMINI_API_KEY : option pystr;
  OMDB_API_KEY : option pystr;
  GLOBAL_SUGGESTION_COUNT : Z
}.

(** [_load_config]: [GLOBAL_SUGGESTION_COUNT = max(1, min(20, int(count)))] *)
Definition load_suggestion_count (count : Z) : Z := Z.max 1 (Z.min 20 count).

Definition default_suggestion_count : Z := 10.

(** ** Response parsing of [generate_recommendations] *)

Definition no_titles_msg : pystr := lit "No titles parsed from Gemini response.".

(** [[f"{i}." for i in range(1, count + 1)] + ['-', BULLET, '*']] *)
Definition separators (count : Z) : list pystr :=
  map (fun i => Py.str_int i ++ lit ".") (Py.range 1 (count + 1))
  ++ [lit "-"; [BULLET]; lit "*"].

(** The [for sep in ...] loop: the first [sep] that [temp_l] starts with
    rebinds [l] and leaves the loop. *)
Fixpoint strip_marker_loop (temp_l l : pystr) (seps : list pystr) : pystr :=
  match seps with
  | [] => l
  | sep :: more =>
      if Py.startswith temp_l sep
      then Py.strip (Py.slice_from l (List.length sep))
      else strip_marker_loop temp_l l more
  end.

(** The body of [for l in lines] up to [cleaned_title]. *)
Definition cleaned_title (count : Z) (l : pystr) : pystr :=
  let temp_l := Py.strip l in
  let l := strip_marker_loop temp_l l (separators count) in
  Py.strip (Py.replace (Py.strip l) NBSP [SPACE]).

(** The [for l in lines] loop with its [break]. *)
Fixpoint collect_titles (count : Z) (titles lines : list pystr) : list pystr :=
  match lines with
  | [] => titles
  | l :: rest =>
      let cleaned := cleaned_title count l in
      if Py.truthy_str cleaned then
        let titles := titles ++ [cleaned] in
        if (Z.of_nat (List.length titles) >=? count)%Z
        then titles
        else collect_titles count titles rest
      else collect_titles count titles rest
  end.

(** [[l.strip() for l in raw.splitlines() if l.strip()]] *)
Definition stripped_lines (ls : list pystr) : list pystr :=
  map Py.strip (filter (fun l => Py.truthy_str (Py.strip l)) ls).

(** [titles] when the loop is left. *)
Definition parse_titles (raw : pystr) (count : Z) : list pystr :=
  collect_titles count [] (stripped_lines (Py.splitlines raw)).

(** Lines 512-532: from [raw] to the returned list or the [RuntimeError]. *)
Definition parse_response (raw : pyval) (count : Z) : result (list pystr) :=
  (ls <- Value.splitlines raw ;;
   let titles := collect_titles count [] (stripped_lines ls) in
   match titles with
   | [] => Raise (RuntimeError no_titles_msg)
   | _ :: _ => Ok titles
   end)%result.

(** ** The info dict of [fetch_imdb_info] *)

Record MediaInfo : Type := {
  title : pyval;
  year : pyval;
  kind : pyval;
  rating : pyval;
  genres : list pystr;
  plot : pyval;
  directors : list pystr;
  cover_url : pyval;
  imdb_id : pyval
}.

(** The dict returned when [OMDB_API_KEY is MISSING_API_KEY]. *)
Definition degraded_info (t : pystr) : MediaInfo := {|
  title := PStr t;
  year := PStr (lit "N/A");
  kind := PStr (lit "N/A");
  rating := PStr (lit "N/A");
  genres := [lit "API Key Missing"];
  plot := PStr (lit "OMDB API Key is missing, unable to fetch movie metadata.");
  directors := [lit "N/A"];
  cover_url := PNone;
  imdb_id := PStr (Py.replace t SPACE [])
|}.

(** From [data = resp.json()] to the [return] inside the [try]. *)
Definition info_of_data (data : pyval) : result (option MediaInfo) :=
  (response <- Value.get data (lit "Response") PNone ;;
   if Value.eq_str response (lit "False") then Ok None
   else
     v_title <- Value.get data (lit "Title") PNone ;;
     v_year <- Value.get data (lit "Year") PNone ;;
     v_kind <- Value.get data (lit "Type") PNone ;;
     v_rating <- Value.get data (lit "imdbRating") PNone ;;
     genre <- Value.get data (lit "Genre") (PStr []) ;;
     v_genres <- Value.split genre (lit ", ") ;;
     v_plot <- Value.get data (lit "Plot") PNone ;;
     director <- Value.get data (lit "Director") (PStr []) ;;
     v_directors <- Value.split director (lit ", ") ;;
     poster <- Value.get data (lit "Poster") PNone ;;
     v_id <- Value.get data (lit "imdbID") PNone ;;
     Ok (Some {|
       title := v_title;
       year := v_year;
       kind := v_kind;
       rating := v_rating;
       genres := v_genres;
       plot := v_plot;
       directors := v_directors;
       cover_url := if negb (Value.eq_str poster (lit "N/A")) then poster else PNone;
       imdb_id := v_id
     |}))%result.

(** [data['candidates'][0]['content']['parts'][0]['text']] *)
Definition candidate_text (data : pyval) : result pyval :=
  (candidates <- Value.getitem_key data (lit "candidates") ;;
   candidate <- Value.getitem_0 candidates ;;
   content <- Value.getitem_key candidate (lit "content") ;;
   parts <- Value.getitem_key content (lit "parts") ;;
   part <- Value.getitem_0 parts ;;
   Value.getitem_key part (lit "text"))%result.

(** The test of the [if] in the loop of [NetworkWorker.run]:
    [info and info.get('imdb_id') and info.get('imdb_id') not in excluded_ids]. *)
Definition keeps (excluded_ids : list pystr) (info : option MediaInfo) : bool :=
  match info with
  | None => false
  | Some i => Value.truthy (imdb_id i) && negb (Value.in_strs (imdb_id i) excluded_ids)
  end.

(** The records among [infos] that pass the test of the loop, in order. *)
Definition kept (excluded_ids : list pystr) (infos : list (option MediaInfo))
  : list MediaInfo :=
  flat_map (fun info => match info with
                        | Some i => if keeps excluded_ids info then [i] else []
                        | None => []
                        end) infos.

(** The records among [infos], in order. *)
Definition present (infos : list (option MediaInfo)) : list MediaInfo :=
  flat_map (fun info => match info with Some i => [i] | None => [] end) infos.

(** ** The network and the effects of the pipeline *)

(** The JSON payload of the POST, whose temperature is the constant 0.2. *)
Record payload : Type := {
  text : pystr;
  inline_data : option pystr;
  maxOutputTokens : Z
}.

Inductive request : Type :=
| POST (url : pystr) (json : payload)
| GET (url : pystr).

(** What a request comes to: an exception of [requests.get] or
    [requests.post], of [raise_for_status], of [resp.json()], or the decoded
    body. *)
Inductive reply : Type :=
| TransportFailure (msg : pystr)
| HttpErrorStatus (msg : pystr)
| InvalidBody (msg : pystr)
| JsonBody (data : pyval).

(** The worker that [MainWindow] builds; [excluded_ids or []] is applied. *)
Record NetworkWorker : Type := {
  query_text : pystr;
  search_type : pystr;
  pre_defined_titles : option (list pystr);
  excluded_ids : list pystr
}.

(** What [run] emits. *)
Inductive signal : Type :=
| finished (results : list MediaInfo)
| error (msg : pystr).

Section Pipeline.

(** The servers: any state, any answer to any request. *)
Variable net : Type.
Variable http : request -> net -> reply * net.

(** Library functions and the interpreter's texts of its own exceptions. *)
Variable json_dumps : pyval -> pystr.
Variable textwrap_dedent : pystr -> pystr.
Variable builtin_str : exn -> pystr.

Variable cfg : config.

(** The state threaded through a call: the servers and the requests sent
    so far. *)
Record world : Type := {
  servers : net;
  sent : list request
}.

Definition M (A : Type) : Type := world -> result A * world.

Definition ret {A} (a : A) : M A := fun w => (Ok a, w).
Definition raise {A} (e : exn) : M A := fun w => (Raise e, w).
Definition bind {A B} (m : M A) (k : A -> M B) : M B :=
  fun w => match m w with
           | (Ok a, w') => k a w'
           | (Raise e, w') => (Raise e, w')
           end.
Definition lift {A} (r : result A) : M A := fun w => (r, w).
(** [try: m  except Exception: h] *)
Definition try_except {A} (m : M A) (h : exn -> M A) : M A :=
  fun w => match m w with
           | (Ok a, w') => (Ok a, w')
           | (Raise e, w') => h e w'
           end.

Local Notation "x <- c ;; k" := (bind c (fun x => k))
  (at level 61, c at next level, right associativity).

(** [resp = requests.get/post(...); resp.raise_for_status(); resp.json()] *)
Definition send (r : request) : M pyval :=
  fun w =>
    let (rep, n) := http r (servers w) in
    let w' := {| servers := n; sent := sent w ++ [r] |} in
    match rep with
    | JsonBody data => (Ok data, w')
    | TransportFailure m | HttpErrorStatus m | InvalidBody m =>
        (Raise (RequestsError m), w')
    end.

(** [str(e)] *)
Definition str_exn (e : exn) : pystr :=
  match e with
  | RuntimeError m | RequestsError m => m
  | _ => builtin_str e
  end.

Definition gemini_url (key : pystr) : pystr :=
  lit "https://generativelanguage.googleapis.com/v1beta/models/gemini-2.5-flash:generateContent?key="
  ++ key.

Definition direct_gemini_api_call (prompt_text : pystr)
    (encoded_image : option pystr) (max_tokens : Z) : M pyval :=
  match GEMINI_API_KEY cfg with
  | None =>
      raise (RuntimeError (lit "Gemini API Key is not configured. Cannot make API call."))
  | Some key =>
      data <- send (POST (gemini_url key)
                      {| text := prompt_text;
                         inline_data :=
                           match encoded_image with
                           | Some ((_ :: _) as img) => Some img
                           | _ => None
                           end;
                         maxOutputTokens := max_tokens |}) ;;
      match candidate_text data with
      | Ok t => ret t
      | Raise KeyError | Raise IndexError => ret (PStr (json_dumps data))
      | Raise e => raise e
      end
  end.

Definition NL : pystr := [10%N].

Definition prompt_of (query_text search_type excluded_list : pystr) (count : Z)
  : pystr :=
  textwrap_dedent
    (NL ++ lit "    You are a helpful assistant that suggests " ++ search_type
        ++ lit "s." ++ NL
        ++ lit "    Only suggest " ++ search_type
        ++ lit "s (do not suggest the other type)." ++ NL
        ++ NL
        ++ lit "    User tastes: " ++ query_text ++ NL
        ++ lit "    " ++ NL
        ++ lit "    IMPORTANT: DO NOT suggest any titles with the following IMDb IDs: "
        ++ excluded_list ++ lit "." ++ NL
        ++ NL
        ++ lit "    Provide a short ordered list of " ++ Py.str_int count
        ++ lit " titles only (one per line)." ++ NL
        ++ lit "    ").

Definition missing_key_msg : pystr :=
  lit "Gemini API Key is missing. Cannot generate recommendations.".

Definition generate_recommendations (query_text search_type : pystr)
    (excluded_ids : list pystr) : M (list pystr) :=
  match GEMINI_API_KEY cfg with
  | None => raise (RuntimeError missing_key_msg)
  | Some _ =>
      let excluded_list :=
        match excluded_ids with
        | _ :: _ => Py.join (lit ", ") excluded_ids
        | [] => lit "None"
        end in
      let count := GLOBAL_SUGGESTION_COUNT cfg in
      let prompt := prompt_of query_text search_type excluded_list count in
      try_except
        (raw <- direct_gemini_api_call prompt None 2000 ;;
         lift (parse_response raw count))
        (fun e => raise e)
  end.

Definition omdb_url (t key : pystr) : pystr :=
  lit "http://www.omdbapi.com/?t=" ++ t ++ lit "&apikey=" ++ key.

Definition fetch_imdb_info (t : pystr) : M (option MediaInfo) :=
  match OMDB_API_KEY cfg with
  | None => ret (Some (degraded_info t))
  | Some key =>
      try_except
        (data <- send (GET (omdb_url t key)) ;;
         lift (info_of_data data))
        (fun _ => ret None)
  end.

(** The [for t in titles] loop of [run]. *)
Fixpoint resolve_titles (excluded : list pystr) (titles : list pystr)
    (results : list MediaInfo) : M (list MediaInfo) :=
  match titles with
  | [] => ret results
  | t :: rest =>
      info <- fetch_imdb_info t ;;
      match info with
      | Some i =>
          if keeps excluded info
          then resolve_titles excluded rest (results ++ [i])
          else resolve_titles excluded rest results
      | None => resolve_titles excluded rest results
      end
  end.

(** The answers of [fetch_imdb_info] to [titles], asked one after the other
    from the world [w]; used to state what a page holds. *)
Fixpoint lookups (titles : list pystr) (w : world) : list (option MediaInfo) :=
  match titles with
  | [] => []
  | t :: rest =>
      match fetch_imdb_info t w with
      | (Ok info, w') => info :: lookups rest w'
      | (Raise _, _) => []
      end
  end.

Definition run (self : NetworkWorker) : world -> signal * world :=
  fun w =>
    let body :=
      titles <- match pre_defined_titles self with
                | Some ((_ :: _) as ts) => ret ts
                | _ => generate_recommendations (query_text self) (search_type self)
                         (excluded_ids self)
                end ;;
      resolve_titles (excluded_ids self) titles [] in
    match body w with
    | (Ok results, w') => (finished results, w')
    | (Raise e, w') => (error (str_exn e), w')
    end.

(** Where the titles of a run come from: the pre-defined list when it is not
    empty, the Generator otherwise. *)
Definition titles_of_run (self : NetworkWorker) (w : world)
    (titles : list pystr) (w0 : world) : Prop :=
  match pre_defined_titles self with
  | Some (t :: ts) => titles = t :: ts /\ w0 = w
  | _ => generate_recommendations (query_text self) (search_type self)
           (excluded_ids self) w
         = (Ok titles, w0)
  end.

End Pipeline.

(** ** The parser as the specification words it

    Section 4.1, steps 1 to 5, written down from the text: the lines are
    trimmed and the blank ones dropped; a line loses the first marker of
    the list "1." ... "<count>.", "-", bullet, "*" that it begins with; the
    rest is trimmed, its non-breaking spaces become spaces, and it is trimmed
    again; empty results are dropped; the first [count] are kept. *)

Module Spec.

Definition numeric_markers (count : Z) : list pystr :=
  map (fun k => Py.str_int (Z.of_nat k) ++ [DOT]) (seq 1 (Z.to_nat count)).

Definition bullet_markers : list pystr := [lit "-"; [BULLET]; lit "*"].

Definition markers (count : Z) : list pystr :=
  numeric_markers count ++ bullet_markers.

Definition strip_marker (count : Z) (line : pystr) : pystr :=
  match find (Py.startswith line) (markers count) with
  | Some m => skipn (List.length m) line
  | None => line
  end.

Definition normalize_nbsp (s : pystr) : pystr :=
  map (fun c => if N.eqb c NBSP then SPACE else c) s.

Definition clean (count : Z) (line : pystr) : pystr :=
  Py.strip (normalize_nbsp (Py.strip (strip_marker count line))).

Definition nonblank_lines (raw : pystr) : list pystr :=
  filter Py.truthy_str (map Py.strip (Py.splitlines raw)).

Definition parse (raw : pystr) (count : Z) : list pystr :=
  firstn (Z.to_nat count)
    (filter Py.truthy_str (map (clean count) (nonblank_lines raw))).

End Spec.

(** ** The session's exclusion list and the quick filters *)

(** What the loop of [MainWindow.on_results_ready] does to
    [self.excluded_ids]: every truthy id of [results] is appended, in
    order.  (An empty [results] returns before the loop.) *)
Definition on_results_ready (excluded_ids : list pyval) (results : list MediaInfo)
  : list pyval :=
  fold_left
    (fun ids info =>
       if Value.truthy (imdb_id info) then ids ++ [imdb_id info] else ids)
    results excluded_ids.

(** [[t.strip() for t in query_string.split(',')]] of
    [update_quick_filters]. *)
Definition quick_filter_titles (query_string : pystr) : list pystr :=
  map Py.strip (Py.split query_string (lit ",")).

Definition is_GET (r : request) : bool :=
  match r with GET _ => true | POST _ _ => false end.

(** ** Key files and the configuration file *)

(** What [_read_key_content] finds at the path of a key file: no file, an
    exception on opening or reading it, or its text. *)
Inductive key_file : Type :=
| NoKeyFile
| KeyFileError
| KeyFileText (content : pystr).

Definition _read_key_content (f : key_file) : pystr :=
  match f with
  | NoKeyFile => []
  | KeyFileError => []
  | KeyFileText content => Py.strip content
  end.

(** [content or MISSING_API_KEY] *)
Definition key_or_missing (content : pystr) : option pystr :=
  match content with
  | [] => None
  | _ :: _ => Some content
  end.

(** The globals that [_load_config] assigns. *)
Record settings : Type := {
  suggestion_count : Z;
  movie_color : pyval;
  show_color : pyval;
  neon_pink : pyval;
  neon_blue : pyval
}.

Definition default_settings : settings := {|
  suggestion_count := default_suggestion_count;
  movie_color := PStr (lit "#1E90FF");
  show_color := PStr (lit "#FF4500");
  neon_pink := PStr (lit "#FF1493");
  neon_blue := PStr (lit "#1E90FF")
|}.

(** What [_load_config] finds at the path of the configuration file: no
    file, an exception of [open] or [json.load], or the decoded value. *)
Inductive config_file : Type :=
| NoConfigFile
| ConfigFileError
| ConfigJson (config : pyval).

Section Configuration.

(** [int(s)] for a string: the integer, or nothing when it raises. *)
Variable int_of_str : pystr -> option Z.

(** [int(v)], nothing when it raises. *)
Definition py_int (v : pyval) : option Z :=
  match v with
  | PInt z => Some z
  | PBool b => Some (if b then 1 else 0)%Z
  | PStr s => int_of_str s
  | _ => None
  end.

(** The assignments are made one after the other; an exception leaves the
    ones already made. *)
Definition _load_config (f : config_file) (g : settings) : settings :=
  match f with
  | NoConfigFile => g
  | ConfigFileError => g
  | ConfigJson config =>
      match Value.get config (lit "suggestion_count") (PInt 10) with
      | Raise _ => g
      | Ok count =>
      match py_int count with
      | None => g
      | Some n =>
      let g := {| suggestion_count := load_suggestion_count n;
                  movie_color := movie_color g; show_color := show_color g;
                  neon_pink := neon_pink g; neon_blue := neon_blue g |} in
      match Value.get config (lit "movie_color") (movie_color g) with
      | Raise _ => g
      | Ok v =>
      let g := {| suggestion_count := suggestion_count g;
                  movie_color := v; show_color := show_color g;
                  neon_pink := neon_pink g; neon_blue := neon_blue g |} in
      match Value.get config (lit "show_color") (show_color g) with
      | Raise _ => g
      | Ok v =>
      let g := {| suggestion_count := suggestion_count g;
                  movie_color := movie_color g; show_color := v;
                  neon_pink := neon_pink g; neon_blue := neon_blue g |} in
      match Value.get config (lit "neon_pink") (neon_pink g) with
      | Raise _ => g
      | Ok v =>
      let g := {| suggestion_count := suggestion_count g;
                  movie_color := movie_color g; show_color := show_color g;
                  neon_pink := v; neon_blue := neon_blue g |} in
      match Value.get config (lit "neon_blue") (neon_blue g) with
      | Raise _ => g
      | Ok v =>
          {| suggestion_count := suggestion_count g;
             movie_color := movie_color g; show_color := show_color g;
             neon_pink := neon_pink g; neon_blue := v |}
      end end end end end end
  end.

(** The files of the configuration directory. *)
Record config_dir : Type := {
  config_json : config_file;
  gemini_api_key_txt : key_file;
  omdb_api_key_txt : key_file
}.

(** [_setup_cwd_and_load_keys]: [dir] is nothing when the directory cannot
    be established, and the function returns before it loads anything. *)
Definition _setup_cwd_and_load_keys (dir : option config_dir)
    (state : config * settings) : config * settings :=
  match dir with
  | None => state
  | Some d =>
      let g := _load_config (config_json d) (snd state) in
      ({| GEMINI_API_KEY := key_or_missing (_read_key_content (gemini_api_key_txt d));
          OMDB_API_KEY := key_or_missing (_read_key_content (omdb_api_key_txt d));
          GLOBAL_SUGGESTION_COUNT := suggestion_count g |},
       g)
  end.

End Configuration.

(** The globals when the module is first read, before
    [_setup_cwd_and_load_keys] runs. *)
Definition initial_state : config * settings :=
  ({| GEMINI_API_KEY := None; OMDB_API_KEY := None;
      GLOBAL_SUGGESTION_COUNT := default_suggestion_count |},
   default_settings).

(** ** Vocabulary of the properties *)

(** What the Resolver can be handed safely: a title that is not empty, has
    no white space around it, no non-breaking space and no line boundary in
    it. *)
Definition clean_title (t : pystr) : Prop :=
  t <> [] /\ Py.strip t = t /\ ~ In NBSP t /\
  forall c, In c t -> Py.is_linebreak c = false.

(** The GET requests of the lookups of [titles]. *)
Definition omdb_requests (cfg : config) (titles : list pystr) : list request :=
  match OMDB_API_KEY cfg with
  | Some key => map (fun t => GET (omdb_url t key)) titles
  | None => []
  end.

(** The state of the globals after the reloads [dirs], from the first read of
    the module on. *)
Definition after_reloads (int_of_str : pystr -> option Z)
    (dirs : list (option config_dir)) : config * settings :=
  fold_left (fun st d => _setup_cwd_and_load_keys int_of_str d st) dirs initial_state.

(** The payload that [direct_gemini_api_call] posts. *)
Definition gemini_request (key prompt_text : pystr) (encoded_image : option pystr)
    (max_tokens : Z) : request :=
  POST (gemini_url key)
    {| text := prompt_text;
       inline_data :=
         match encoded_image with
         | Some ((_ :: _) as img) => Some img
         | _ => None
         end;
       maxOutputTokens := max_tokens |}.

(** ** Sample data *)

Definition sample_response : pystr :=
  Py.join [10%N]
    [lit "Here you go:"; lit " 1. Inception "; []; lit "- Arrival";
     BULLET :: NBSP :: lit "Heat"; lit "2."; lit "10. Up" ++ [NBSP] ++ lit "2";
     lit "* Alien"].

(** An ASCII decimal digit. *)
Definition is_digit (c : char) : bool := ((48 <=? c) && (c <=? 57))%N.

(** A small world: both keys configured, a Gemini server that always
    answers with the same two-line list, and an OMDb server that knows
    three titles. *)
Definition sample_cfg : config := {|
  GEMINI_API_KEY := Some (lit "g-key");
  OMDB_API_KEY := Some (lit "o-key");
  GLOBAL_SUGGESTION_COUNT := default_suggestion_count
|}.

Definition sample_cfg_no_keys : config := {|
  GEMINI_API_KEY := None;
  OMDB_API_KEY := None;
  GLOBAL_SUGGESTION_COUNT := default_suggestion_count
|}.

Definition gemini_body (t : pystr) : pyval :=
  PDict [(lit "candidates",
          PList [PDict [(lit "content",
                         PDict [(lit "parts", PList [PDict [(lit "text", PStr t)]])])]])].

Definition inception_body : pyval :=
  PDict [(lit "Title", PStr (lit "Inception")); (lit "Year", PStr (lit "2010"));
         (lit "Type", PStr (lit "movie")); (lit "imdbRating", PStr (lit "8.8"));
         (lit "Genre", PStr (lit "Action, Adventure, Sci-Fi"));
         (lit "Plot", PStr (lit "A thief who steals corporate secrets."));
         (lit "Director", PStr (lit "Christopher Nolan"));
         (lit "Poster", PStr (lit "N/A"));
         (lit "imdbID", PStr (lit "tt1375666")); (lit "Response", PStr (lit "True"))].

Definition arrival_body : pyval :=
  PDict [(lit "Title", PStr (lit "Arrival")); (lit "Year", PStr (lit "2016"));
         (lit "Poster", PStr (lit "https://img.example/arrival.jpg"));
         (lit "imdbID", PStr (lit "tt2543164")); (lit "Response", PStr (lit "True"))].

Definition not_found_body : pyval :=
  PDict [(lit "Response", PStr (lit "False")); (lit "Error", PStr (lit "Movie not found!"))].

Definition sample_http (gemini_text : pystr) (r : request) (n : unit) : reply * unit :=
  match r with
  | POST _ _ => (JsonBody (gemini_body gemini_text), n)
  | GET url =>
      if Py.str_eqb url (lit "http://www.omdbapi.com/?t=Inception&apikey=o-key")
      then (JsonBody inception_body, n)
      else if Py.str_eqb url (lit "http://www.omdbapi.com/?t=Arrival&apikey=o-key")
      then (JsonBody arrival_body, n)
      else if Py.str_eqb url (lit "http://www.omdbapi.com/?t=Heat&apikey=o-key")
      then (TransportFailure (lit "timed out"), n)
      else (JsonBody not_found_body, n)
  end.

Definition sample_world : world unit := {| servers := tt; sent := [] |}.

Definition sample_run (gemini_text : pystr) (cfg : config) (self : NetworkWorker)
  : signal * world unit :=
  run (sample_http gemini_text) (fun _ => []) (fun p => p) (fun _ => []) cfg self
    sample_world.

Definition sample_worker (excluded : list pystr) : NetworkWorker := {|
  query_text := lit "dark comedies";
  search_type := lit "movie";
  pre_defined_titles := None;
  excluded_ids := excluded
|}.

Definition duplicate_response : pystr :=
  lit "1. Inception" ++ [10%N] ++ lit "2. Inception" ++ [10%N].

Definition two_titles_response : pystr :=
  lit "1. Inception" ++ [10%N] ++ lit "2. Arrival" ++ [10%N].

Definition blank_response : pystr :=
  Py.join [10%N] [[]; lit "   "; lit "- "; lit "1."; [BULLET; NBSP]; lit "*"].

(** [sep in p]: the string [sep] occurs in [p]. *)
Definition occurs (sep p : pystr) : Prop := exists a b, p = a ++ sep ++ b.

Definition inception_info : MediaInfo := {|
  title := PStr (lit "Inception");
  year := PStr (lit "2010");
  kind := PStr (lit "movie");
  rating := PStr (lit "8.8");
  genres := [lit "Action"; lit "Adventure"; lit "Sci-Fi"];
  plot := PStr (lit "A thief who steals corporate secrets.");
  directors := [lit "Christopher Nolan"];
  cover_url := PNone;
  imdb_id := PStr (lit "tt1375666")
|}.

Definition arrival_info : MediaInfo := {|
  title := PStr (lit "Arrival");
  year := PStr (lit "2016");
  kind := PNone;
  rating := PNone;
  genres := [[]];
  plot := PNone;
  directors := [[]];
  cover_url := PStr (lit "https://img.example/arrival.jpg");
  imdb_id := PStr (lit "tt2543164")
|}.

(** The world after the requests [rs] were sent from [sample_world]. *)
Definition sample_world_after (rs : list request) : world unit :=
  {| servers := tt; sent := rs |}.

Definition sample_post : request :=
  POST (gemini_url (lit "g-key"))
    {| text := prompt_of (fun p => p) (lit "dark comedies") (lit "movie") (lit "None") 10;
       inline_data := None;
       maxOutputTokens := 2000 |}.

Definition sample_get (t : pystr) : request := GET (omdb_url t (lit "o-key")).

(** No occurrence of [sep] in [cur ++ s] begins inside [cur]. *)
Definition clear_of (sep cur s : pystr) : Prop :=
  forall a b, cur ++ s = a ++ sep ++ b -> (List.length cur <= List.length a)%nat.

(** A Gemini server that answers [post_reply], with an OMDb server that
    knows no title. *)
Definition reply_http (post_reply : reply) (r : request) (n : unit) : reply * unit :=
  match r with
  | POST _ _ => (post_reply, n)
  | GET _ => (JsonBody not_found_body, n)
  end.

Definition reply_run (post_reply : reply) : signal * world unit :=
  run (reply_http post_reply) (fun _ => lit "{}") (fun p => p)
    (fun _ => lit "raised by the interpreter") sample_cfg (sample_worker [])
    sample_world.

(** A Gemini server that answers its first request with one title and the
    later ones with two; the OMDb server of [sample_http]. *)
Definition paging_http (r : request) (n : nat) : reply * nat :=
  match r with
  | POST _ _ =>
      (JsonBody (gemini_body match n with
                             | O => lit "1. Inception"
                             | S _ => two_titles_response
                             end), S n)
  | GET _ => (fst (sample_http [] r tt), n)
  end.

Definition paging_run (self : NetworkWorker) (n : nat) : signal * world nat :=
  run paging_http (fun _ => []) (fun p => p) (fun _ => []) sample_cfg self
    {| servers := n; sent := [] |}.

(** A configuration directory with a key file of white space only. *)
Definition sample_dir : config_dir := {|
  config_json :=
    ConfigJson (PDict [(lit "suggestion_count", PInt 50);
                       (lit "movie_color", PStr (lit "#00FF00"))]);
  gemini_api_key_txt := KeyFileText (lit "  g-key" ++ [10%N]);
  omdb_api_key_txt := KeyFileText ([32%N; 9%N; 10%N])
|}.

(** * Properties *)

Example strip_ex : Py.strip (lit "  1. Heat  ") = lit "1. Heat".
Proof. reflexivity. Qed.
Example strip_nbsp_ex : Py.strip ([NBSP] ++ lit "Up" ++ [NBSP; 9%N]) = lit "Up".
Proof. reflexivity. Qed.
Example splitlines_ex :
  Py.splitlines (lit "a" ++ [10%N; 10%N] ++ lit "b" ++ [13%N; 10%N] ++ lit "c" ++ [10%N])
  = [lit "a"; []; lit "b"; lit "c"].
Proof. reflexivity. Qed.
Example split_ex : Py.split (lit "Action, Sci-Fi,Drama, ") (lit ", ")
                   = [lit "Action"; lit "Sci-Fi,Drama"; []].
Proof. reflexivity. Qed.
Example split_empty_ex : Py.split [] (lit ", ") = [[]].
Proof. reflexivity. Qed.
Example str_int_ex : Py.str_int 10 = lit "10" /\ Py.range 1 4 = [1; 2; 3]%Z.
Proof. split; reflexivity. Qed.

(** ** Trimming *)

Section Strip.

Import Py.

Lemma lstrip_idem s : lstrip (lstrip s) = lstrip s.
Proof.
  induction s as [|c t IH]; simpl; auto.
  destruct (isspace c) eqn:E; auto.
  simpl. now rewrite E.
Qed.

Lemma rstrip_idem s : rstrip (rstrip s) = rstrip s.
Proof.
  induction s as [|c t IH]; simpl; auto.
  destruct (rstrip t) as [|r rs] eqn:E.
  - destruct (isspace c) eqn:Ec; simpl; auto. now rewrite Ec.
  - simpl in IH |- *. now rewrite IH.
Qed.

(** What [lstrip] returns is empty or begins with a character that is not
    white space. *)
Lemma lstrip_head s :
  match lstrip s with [] => True | c :: _ => isspace c = false end.
Proof.
  induction s as [|c t IH]; simpl; auto.
  destruct (isspace c) eqn:E; auto.
Qed.

Lemma rstrip_cons_nonspace c t :
  isspace c = false -> rstrip (c :: t) = c :: rstrip t.
Proof.
  intros Hc. simpl. rewrite Hc. now destruct (rstrip t).
Qed.

Lemma lstrip_rstrip_of_lstrip s : lstrip (rstrip (lstrip s)) = rstrip (lstrip s).
Proof.
  pose proof (lstrip_head s) as H.
  destruct (lstrip s) as [|c t]; auto.
  rewrite rstrip_cons_nonspace by assumption. simpl. now rewrite H.
Qed.

Lemma strip_idem s : strip (strip s) = strip s.
Proof.
  unfold strip. rewrite lstrip_rstrip_of_lstrip. apply rstrip_idem.
Qed.

(** Trimming keeps a prefix that ends in a character that is not white
    space and begins with one. *)
Lemma rstrip_app_nonspace p c t :
  isspace c = false -> rstrip (p ++ c :: t) = p ++ c :: rstrip t.
Proof.
  intros Hc. induction p as [|a p IH].
  - now apply rstrip_cons_nonspace.
  - rewrite <- !app_comm_cons. cbn [rstrip]. rewrite IH.
    now destruct p.
Qed.

End Strip.

(** ** The response parser *)

Section Parser.

Import Py.

Lemma range_from_1 count :
  range 1 (count + 1) = map Z.of_nat (seq 1 (Z.to_nat count)).
Proof.
  unfold range. replace (count + 1 - 1)%Z with count by lia.
  rewrite <- seq_shift, map_map. apply map_ext. intros k. lia.
Qed.

Lemma separators_markers count : separators count = Spec.markers count.
Proof.
  unfold separators, Spec.markers, Spec.numeric_markers.
  now rewrite range_from_1, map_map.
Qed.

Lemma replace_nbsp s : replace s NBSP [SPACE] = Spec.normalize_nbsp s.
Proof.
  induction s as [|c t IH]; simpl; auto.
  destruct (c =? NBSP)%N; simpl; congruence.
Qed.

(** The loop over the separators strips the first one that matches. *)
Lemma strip_marker_loop_find temp_l l seps :
  strip_marker_loop temp_l l seps =
  match find (startswith temp_l) seps with
  | Some m => strip (skipn (List.length m) l)
  | None => l
  end.
Proof.
  induction seps as [|sep more IH]; simpl; auto.
  now destruct (startswith temp_l sep).
Qed.

Lemma cleaned_title_clean count l :
  strip l = l -> cleaned_title count l = Spec.clean count l.
Proof.
  intros H. unfold cleaned_title, Spec.clean, Spec.strip_marker.
  rewrite H, strip_marker_loop_find, separators_markers, replace_nbsp.
  destruct (find (startswith l) (Spec.markers count)); auto.
  now rewrite strip_idem.
Qed.

Lemma stripped_lines_filter_map ls :
  stripped_lines ls = filter truthy_str (map strip ls).
Proof.
  unfold stripped_lines.
  induction ls as [|l rest IH]; simpl; auto.
  destruct (truthy_str (strip l)); simpl; congruence.
Qed.

Lemma stripped_lines_fixed ls l : In l (stripped_lines ls) -> strip l = l.
Proof.
  unfold stripped_lines. rewrite in_map_iff.
  intros (x & <- & _). apply strip_idem.
Qed.

(** The loop with its [break], started below [count], appends the first
    titles that are still missing. *)
Lemma collect_titles_firstn count lines : forall titles,
  (Z.of_nat (List.length titles) < count)%Z ->
  collect_titles count titles lines =
  titles ++ firstn (Z.to_nat count - List.length titles)
              (filter truthy_str (map (cleaned_title count) lines)).
Proof.
  induction lines as [|l rest IH]; intros titles H; simpl.
  - now rewrite firstn_nil, app_nil_r.
  - destruct (truthy_str (cleaned_title count l)) eqn:E; [|now apply IH].
    rewrite length_app. simpl List.length.
    destruct (Z.geb_spec (Z.of_nat (List.length titles + 1)) count) as [Hge|Hlt].
    + replace (Z.to_nat count - List.length titles)%nat with 1%nat by lia.
      reflexivity.
    + rewrite IH by (rewrite length_app; simpl; lia).
      rewrite length_app, <- app_assoc. simpl.
      replace (Z.to_nat count - List.length titles)%nat
        with (S (Z.to_nat count - (List.length titles + 1)))%nat by lia.
      reflexivity.
Qed.

Lemma parse_titles_spec raw count :
  (1 <= count)%Z -> parse_titles raw count = Spec.parse raw count.
Proof.
  intros Hc. unfold parse_titles, Spec.parse, Spec.nonblank_lines.
  rewrite collect_titles_firstn by (simpl; lia).
  simpl. rewrite Nat.sub_0_r, <- stripped_lines_filter_map.
  f_equal. f_equal. apply map_ext_in.
  intros l Hl. apply cleaned_title_clean. eapply stripped_lines_fixed; eauto.
Qed.

Lemma parse_response_titles raw count :
  parse_response (PStr raw) count =
  match parse_titles raw count with
  | [] => Raise (RuntimeError no_titles_msg)
  | t :: ts => Ok (t :: ts)
  end.
Proof.
  unfold parse_response, parse_titles. simpl.
  now destruct (collect_titles count [] (stripped_lines (splitlines raw))).
Qed.

(** C1. For a count of at least one (the configuration keeps it between 1
    and 20), the titles the parser of [generate_recommendations] collects
    are exactly the cleaned texts of the non-blank lines, in line order,
    cut to the first [count]: each line loses the first marker it begins
    with (numeric ones first, ascending, then the bullets), is trimmed, has
    its non-breaking spaces turned into spaces and is trimmed again, and
    empty results are dropped; when that list is not empty it is what the
    parser returns. *)
Theorem parser_refines_spec raw count :
  (1 <= count)%Z ->
  parse_titles raw count = Spec.parse raw count /\
  (Spec.parse raw count <> [] ->
   parse_response (PStr raw) count = Ok (Spec.parse raw count)).
Proof.
  intros Hc. split; [now apply parse_titles_spec|].
  intros Hne. rewrite parse_response_titles, parse_titles_spec by assumption.
  destruct (Spec.parse raw count); congruence.
Qed.

Example sample_parsed_5 :
  parse_response (PStr sample_response) 5 =
  Ok [lit "Here you go:"; lit "Inception"; lit "Arrival"; lit "Heat"; lit "10. Up 2"].
Proof. reflexivity. Qed.

Example sample_parsed_10 :
  parse_response (PStr sample_response) 10 =
  Ok [lit "Here you go:"; lit "Inception"; lit "Arrival"; lit "Heat"; lit "Up 2";
      lit "Alien"].
Proof. reflexivity. Qed.

Lemma parser_refines_spec_witness :
  (1 <= 5)%Z /\
  parse_titles sample_response 5 = Spec.parse sample_response 5 /\
  (Spec.parse sample_response 5 <> [] ->
   parse_response (PStr sample_response) 5 = Ok (Spec.parse sample_response 5)).
Proof.
  split; [lia | apply (@parser_refines_spec sample_response 5); lia].
Defined.

(** Below one the loop still takes the first title before it tests the
    count; the configuration never holds such a count. *)
Example count_zero_takes_one :
  parse_titles sample_response 0 = [lit "Here you go:"] /\
  Spec.parse sample_response 0 = [].
Proof. split; reflexivity. Qed.

Lemma load_suggestion_count_range c :
  (1 <= load_suggestion_count c <= 20)%Z.
Proof. unfold load_suggestion_count. lia. Qed.

End Parser.

(** ** Decimal numerals and the numeric markers *)

Section Numerals.

Import Py.

Lemma lit_inj a b : lit a = lit b -> a = b.
Proof.
  unfold lit. intros H.
  rewrite <- (string_of_list_ascii_of_string a), <- (string_of_list_ascii_of_string b).
  f_equal. revert H.
  generalize (list_ascii_of_string a) (list_ascii_of_string b).
  induction l as [|x xs IH]; intros [|y ys]; simpl; try discriminate; auto.
  intros [= Hxy Hrest]. f_equal; auto.
  rewrite <- (ascii_N_embedding x), <- (ascii_N_embedding y). now rewrite Hxy.
Qed.

Lemma to_int_not_nil k : Z.to_int k <> Pos Nil /\ Z.to_int k <> Neg Nil.
Proof.
  destruct k as [|p|p]; simpl; split; try discriminate;
    intros [= H]; now apply (Unsigned.to_uint_nonnil p).
Qed.

Lemma str_int_inj i k : str_int i = str_int k -> i = k.
Proof.
  unfold str_int. intros H%lit_inj.
  apply DecimalZ.to_int_inj.
  destruct (to_int_not_nil i) as [Hi1 Hi2], (to_int_not_nil k) as [Hk1 Hk2].
  pose proof (NilZero.isi _ Hi1 Hi2) as Ei.
  pose proof (NilZero.isi _ Hk1 Hk2) as Ek.
  rewrite H in Ei. congruence.
Qed.

Lemma uint_digits d :
  Forall (fun c => is_digit c = true) (lit (NilEmpty.string_of_uint d)).
Proof.
  induction d; simpl; constructor; auto.
Qed.

Lemma str_int_digits k :
  (0 <= k)%Z ->
  exists c cs, str_int k = c :: cs /\ Forall (fun c => is_digit c = true) (c :: cs).
Proof.
  intros Hk. unfold str_int.
  assert (exists d, Z.to_int k = Pos d /\ d <> Nil) as (d & -> & Hd).
  { destruct k as [|p|p]; simpl; try lia.
    - exists zero. split; [reflexivity | discriminate].
    - exists (Pos.to_uint p). split; auto. apply Unsigned.to_uint_nonnil. }
  simpl. pose proof (uint_digits d) as Hall.
  destruct d; try congruence;
    (do 2 eexists; split; [reflexivity | exact Hall]).
Qed.

Lemma startswith_cons a p b s :
  startswith (b :: s) (a :: p) = (a =? b)%N && startswith s p.
Proof. reflexivity. Qed.

(** A numeral followed by a dot is a prefix of another numeral followed
    by a dot only when the two numerals are the same. *)
Lemma digits_dot_prefix a : forall b rest,
  Forall (fun c => is_digit c = true) a ->
  Forall (fun c => is_digit c = true) b ->
  startswith (b ++ DOT :: rest) (a ++ [DOT]) = true -> a = b.
Proof.
  induction a as [|x a IH]; intros [|y b] rest Ha Hb;
    rewrite <- ?app_comm_cons, ?app_nil_l; auto;
    rewrite startswith_cons, andb_true_iff, N.eqb_eq.
  - inversion Hb as [|? ? Hy _]; subst. intros [<- _]. discriminate.
  - inversion Ha as [|? ? Hx _]; subst. intros [-> _]. discriminate.
  - inversion Ha; inversion Hb; subst. intros [-> H]. f_equal. eauto.
Qed.

Lemma digit_not_space c : is_digit c = true -> isspace c = false.
Proof.
  unfold is_digit, isspace. intros H.
  apply andb_true_iff in H as [H1%N.leb_le H2%N.leb_le].
  repeat match goal with
         | |- context [(?a <=? ?b)%N] => destruct (N.leb_spec a b); try lia
         | |- context [(?a =? ?b)%N] => destruct (N.eqb_spec a b); try lia
         end; reflexivity.
Qed.

Lemma replace_digits s :
  Forall (fun c => is_digit c = true) s -> replace s NBSP [SPACE] = s.
Proof.
  induction 1 as [|c s Hc _ IH]; simpl; auto.
  destruct (N.eqb_spec c NBSP) as [->|_]; [discriminate|].
  simpl. now rewrite IH.
Qed.

Lemma replace_app s t old new :
  replace (s ++ t) old new = replace s old new ++ replace t old new.
Proof. unfold replace. apply flat_map_app. Qed.

Lemma startswith_app p t : startswith (p ++ t) p = true.
Proof.
  induction p as [|c p IH]; [reflexivity|].
  now rewrite <- app_comm_cons, startswith_cons, N.eqb_refl.
Qed.

(** Trimming a line that begins with a numeral and a dot only shortens what
    follows the dot. *)
Lemma strip_numeral_dot c cs rest :
  Forall (fun c => is_digit c = true) (c :: cs) ->
  strip ((c :: cs) ++ DOT :: rest) = (c :: cs) ++ DOT :: rstrip rest.
Proof.
  intros Hd. unfold strip.
  assert (lstrip ((c :: cs) ++ DOT :: rest) = (c :: cs) ++ DOT :: rest) as ->.
  { simpl. inversion Hd; subst. now rewrite digit_not_space. }
  now apply rstrip_app_nonspace.
Qed.

End Numerals.

Section OutOfRangeNumerals.

Import Py.

Lemma in_range i a b : In i (range a b) <-> (a <= i < b)%Z.
Proof.
  unfold range. rewrite in_map_iff. split.
  - intros (k & <- & Hk%in_seq). lia.
  - intros H. exists (Z.to_nat (i - a)). split; [lia|].
    apply in_seq. lia.
Qed.

Lemma find_all_false {A} (f : A -> bool) l :
  (forall x, In x l -> f x = false) -> find f l = None.
Proof.
  induction l as [|x l IH]; simpl; auto.
  intros H. rewrite (H x) by auto. auto.
Qed.

Lemma digit_not_bullet c b :
  is_digit c = true -> In b Spec.bullet_markers ->
  forall s, startswith (c :: s) b = false.
Proof.
  unfold is_digit. intros Hc Hb s.
  apply andb_true_iff in Hc as [H1%N.leb_le H2%N.leb_le].
  destruct Hb as [<-|[<-|[<-|[]]]];
    change (lit "-") with [45%N]; change (lit "*") with [42%N]; unfold BULLET;
    rewrite startswith_cons;
    apply andb_false_iff; left; apply N.eqb_neq; lia.
Qed.

(** No separator generated for [count] is a prefix of a line that begins
    with a run of digits that is not the numeral of a number of [1..count],
    followed by a dot. *)
Lemma no_separator_matches count c cs rest :
  Forall (fun c => is_digit c = true) (c :: cs) ->
  (forall i, (1 <= i <= count)%Z -> str_int i <> c :: cs) ->
  find (startswith ((c :: cs) ++ DOT :: rest)) (separators count) = None.
Proof.
  intros Dk Hout. apply find_all_false. intros sep Hsep.
  unfold separators in Hsep. apply in_app_or in Hsep as [Hnum|Hbul].
  - apply in_map_iff in Hnum as (i & <- & Hi%in_range).
    destruct (startswith _ _) eqn:E; auto.
    assert (0 <= i)%Z as Hi0 by lia.
    destruct (str_int_digits Hi0) as (d & ds & Ei & Di).
    change (lit ".") with [DOT] in E.
    exfalso. apply (Hout i); [lia|].
    rewrite Ei in *. eapply digits_dot_prefix; eauto.
  - rewrite <- app_comm_cons.
    inversion Dk; subst. now apply digit_not_bullet.
Qed.

(** Such a line loses nothing to the marker loop, and its title begins with
    the digits and the dot. *)
Lemma unlisted_numeral_kept count c cs rest :
  Forall (fun c => is_digit c = true) (c :: cs) ->
  (forall i, (1 <= i <= count)%Z -> str_int i <> c :: cs) ->
  let l := (c :: cs) ++ DOT :: rest in
  strip_marker_loop (strip l) l (separators count) = l /\
  cleaned_title count l = strip (replace (strip l) NBSP [SPACE]) /\
  startswith (cleaned_title count l) ((c :: cs) ++ [DOT]) = true.
Proof.
  intros Dk Hout l.
  assert (strip l = (c :: cs) ++ DOT :: rstrip rest) as Hstrip.
  { unfold l. now apply strip_numeral_dot. }
  assert (strip_marker_loop (strip l) l (separators count) = l) as Hloop.
  { rewrite strip_marker_loop_find, Hstrip.
    now rewrite no_separator_matches. }
  split; [exact Hloop|].
  assert (cleaned_title count l = strip (replace (strip l) NBSP [SPACE])) as Hclean.
  { unfold cleaned_title. now rewrite Hloop. }
  split; [exact Hclean|].
  rewrite Hclean, Hstrip, replace_app.
  rewrite replace_digits by exact Dk.
  change (replace (DOT :: rstrip rest) NBSP [SPACE])
    with (DOT :: replace (rstrip rest) NBSP [SPACE]).
  rewrite strip_numeral_dot by exact Dk.
  change (?p ++ DOT :: ?t) with (p ++ [DOT] ++ t).
  rewrite app_assoc. apply startswith_app.
Qed.

(** C9. A line that begins with the decimal numeral of a number [k]
    outside [1..count], followed by a dot, loses nothing to the marker loop:
    the title kept for it is the trimmed, normalized line itself and still
    begins with that numeral and the dot. *)
Theorem out_of_range_numeral_kept count k rest :
  (0 <= k)%Z -> (k < 1 \/ count < k)%Z ->
  let l := str_int k ++ DOT :: rest in
  strip_marker_loop (strip l) l (separators count) = l /\
  cleaned_title count l = strip (replace (strip l) NBSP [SPACE]) /\
  startswith (cleaned_title count l) (str_int k ++ [DOT]) = true.
Proof.
  intros Hk Hout.
  destruct (str_int_digits Hk) as (c & cs & Ek & Dk).
  rewrite Ek. apply unlisted_numeral_kept; [exact Dk|].
  intros i Hi Heq. rewrite <- Ek in Heq.
  apply str_int_inj in Heq. lia.
Qed.

Lemma out_of_range_numeral_kept_witness :
  (0 <= 11)%Z /\ (11 < 1 \/ 10 < 11)%Z /\
  let l := str_int 11 ++ DOT :: lit " Ocean's Eleven" in
  strip_marker_loop (strip l) l (separators 10) = l /\
  cleaned_title 10 l = strip (replace (strip l) NBSP [SPACE]) /\
  startswith (cleaned_title 10 l) (str_int 11 ++ [DOT]) = true.
Proof.
  split; [lia|]. split; [right; lia|].
  apply (@out_of_range_numeral_kept 10 11 (lit " Ocean's Eleven")); lia.
Defined.

Example leading_zeros_kept :
  parse_response (PStr (lit "007. Bond")) 10 = Ok [lit "007. Bond"].
Proof. reflexivity. Qed.

Example year_title_kept :
  parse_response (PStr (join [10%N] [lit "1. Heat"; lit "2001. A Space Odyssey"; lit "0. Zero"])) 10
  = Ok [lit "Heat"; lit "2001. A Space Odyssey"; lit "0. Zero"].
Proof. reflexivity. Qed.

End OutOfRangeNumerals.

(** ** Responses without titles *)

Section EmptyResult.

Import Py.

Lemma collect_titles_all_empty count lines : forall titles,
  (forall l, In l lines -> cleaned_title count l = []) ->
  collect_titles count titles lines = titles.
Proof.
  induction lines as [|l rest IH]; intros titles H; simpl; auto.
  rewrite (H l) by (now left). simpl. apply IH.
  intros l' Hl'. apply H. now right.
Qed.

(** A response all of whose lines are blank or are cleaned to nothing
    raises the error of the parser. *)
Lemma parse_response_empty raw count :
  (forall l, In l (splitlines raw) ->
     strip l = [] \/ cleaned_title count (strip l) = []) ->
  parse_response (PStr raw) count = Raise (RuntimeError no_titles_msg).
Proof.
  intros H. unfold parse_response. simpl.
  rewrite collect_titles_all_empty; auto.
  intros l Hl. unfold stripped_lines in Hl.
  apply in_map_iff in Hl as (x & <- & Hx).
  apply filter_In in Hx as [Hin Hne].
  destruct (H x Hin) as [E|E]; auto.
  rewrite E in Hne. discriminate.
Qed.

(** The parser never returns an empty list. *)
Lemma parse_response_nonempty raw count : parse_response raw count <> Ok [].
Proof.
  unfold parse_response. destruct raw; simpl; try discriminate.
  destruct (collect_titles _ _ _); discriminate.
Qed.

End EmptyResult.

(** ** The Generator without a credential, and without titles *)

Section GeneratorProperties.

Variable net : Type.
Variable http : request -> net -> reply * net.
Variable json_dumps : pyval -> pystr.
Variable textwrap_dedent : pystr -> pystr.
Variable builtin_str : exn -> pystr.

Local Notation generate := (generate_recommendations http json_dumps textwrap_dedent).
Local Notation gemini := (direct_gemini_api_call http json_dumps).
Local Notation worker_run := (run http json_dumps textwrap_dedent builtin_str).

(** With a key, the Generator is the Gemini call followed by the parser. *)
Lemma generate_with_key cfg key q st ex w :
  GEMINI_API_KEY cfg = Some key ->
  generate cfg q st ex w =
  match gemini cfg
          (prompt_of textwrap_dedent q st
             match ex with
             | _ :: _ => Py.join (lit ", ") ex
             | [] => lit "None"
             end (GLOBAL_SUGGESTION_COUNT cfg)) None 2000%Z w with
  | (Ok raw, w') => (parse_response raw (GLOBAL_SUGGESTION_COUNT cfg), w')
  | (Raise e, w') => (Raise e, w')
  end.
Proof.
  intros Hkey. unfold generate_recommendations. rewrite Hkey.
  unfold try_except, bind, lift, raise.
  destruct (gemini cfg _ None 2000%Z w) as [[raw|e] w']; auto.
  now destruct (parse_response raw (GLOBAL_SUGGESTION_COUNT cfg)).
Qed.

(** The Generator never returns an empty list. *)
Lemma generate_never_empty cfg q st ex w w' :
  generate cfg q st ex w <> (Ok [], w').
Proof.
  destruct (GEMINI_API_KEY cfg) as [key|] eqn:Hkey.
  - rewrite generate_with_key with (key := key) by assumption.
    destruct (gemini cfg _ None 2000%Z w) as [[raw|e] w'']; [|discriminate].
    intros [= H _]. now apply parse_response_nonempty in H.
  - unfold generate_recommendations. now rewrite Hkey.
Qed.

(** C5. Without a Gemini key the Generator raises its missing-key error in
    the world it was called in, so before any request is sent, whatever the
    query; and [run], when it has no pre-defined titles and so calls the
    Generator, emits that error's text and no page, again without a
    request. *)
Theorem missing_gemini_key_fails cfg self q st ex w :
  GEMINI_API_KEY cfg = None ->
  pre_defined_titles self = None \/ pre_defined_titles self = Some [] ->
  generate cfg q st ex w = (Raise (RuntimeError missing_key_msg), w) /\
  worker_run cfg self w = (error missing_key_msg, w).
Proof.
  intros Hkey Hpre.
  assert (forall q st ex w,
            generate cfg q st ex w = (Raise (RuntimeError missing_key_msg), w)) as Hgen.
  { intros. unfold generate_recommendations. now rewrite Hkey. }
  split; [apply Hgen|].
  unfold run, bind.
  destruct Hpre as [-> | ->]; now rewrite Hgen.
Qed.

(** C4. When the Gemini call returns a text all of whose lines are blank or
    are cleaned to nothing, the Generator raises the no-titles error instead
    of returning a list. *)
Theorem empty_response_is_an_error cfg q st ex w raw w' :
  gemini cfg
    (prompt_of textwrap_dedent q st
       match ex with
       | _ :: _ => Py.join (lit ", ") ex
       | [] => lit "None"
       end (GLOBAL_SUGGESTION_COUNT cfg)) None 2000%Z w = (Ok (PStr raw), w') ->
  (forall l, In l (Py.splitlines raw) ->
     Py.strip l = [] \/
     cleaned_title (GLOBAL_SUGGESTION_COUNT cfg) (Py.strip l) = []) ->
  generate cfg q st ex w = (Raise (RuntimeError no_titles_msg), w').
Proof.
  intros Hcall Hblank.
  assert (exists key, GEMINI_API_KEY cfg = Some key) as [key Hkey].
  { unfold direct_gemini_api_call in Hcall.
    destruct (GEMINI_API_KEY cfg); eauto. discriminate. }
  rewrite generate_with_key with (key := key) by assumption.
  rewrite Hcall. now rewrite parse_response_empty.
Qed.

End GeneratorProperties.

Lemma missing_gemini_key_fails_witness :
  GEMINI_API_KEY sample_cfg_no_keys = None /\
  (pre_defined_titles (sample_worker []) = None \/
   pre_defined_titles (sample_worker []) = Some []) /\
  generate_recommendations (sample_http []) (fun _ => []) (fun p => p)
    sample_cfg_no_keys (lit "dark comedies") (lit "movie") [] sample_world
  = (Raise (RuntimeError missing_key_msg), sample_world) /\
  run (sample_http []) (fun _ => []) (fun p => p) (fun _ => [])
    sample_cfg_no_keys (sample_worker []) sample_world
  = (error missing_key_msg, sample_world).
Proof.
  split; [reflexivity|]. split; [left; reflexivity|].
  apply (@missing_gemini_key_fails unit (sample_http []) (fun _ => []) (fun p => p)
           (fun _ => []) sample_cfg_no_keys (sample_worker [])
           (lit "dark comedies") (lit "movie") [] sample_world).
  - reflexivity.
  - left. reflexivity.
Defined.

Lemma empty_response_is_an_error_witness :
  generate_recommendations (sample_http blank_response) (fun _ => []) (fun p => p)
    sample_cfg (lit "dark comedies") (lit "movie") [] sample_world
  = (Raise (RuntimeError no_titles_msg),
     {| servers := tt;
        sent := [POST (gemini_url (lit "g-key"))
                   {| text := prompt_of (fun p => p) (lit "dark comedies") (lit "movie")
                                (lit "None") 10;
                      inline_data := None;
                      maxOutputTokens := 2000 |}] |}).
Proof.
  apply (@empty_response_is_an_error unit (sample_http blank_response) (fun _ => [])
           (fun p => p) sample_cfg (lit "dark comedies") (lit "movie") []
           sample_world blank_response).
  - reflexivity.
  - intros l Hl. vm_compute in Hl.
    repeat (destruct Hl as [<-|Hl]; [vm_compute; auto|]).
    destruct Hl.
Defined.

Example missing_gemini_key_scenario :
  sample_run [] sample_cfg_no_keys (sample_worker []) = (error missing_key_msg, sample_world).
Proof. reflexivity. Qed.

Example blank_response_scenario :
  sample_run blank_response sample_cfg (sample_worker []) =
  (error no_titles_msg,
   {| servers := tt;
      sent := [POST (gemini_url (lit "g-key"))
                 {| text := prompt_of (fun p => p) (lit "dark comedies") (lit "movie")
                              (lit "None") 10;
                    inline_data := None;
                    maxOutputTokens := 2000 |}] |}).
Proof. reflexivity. Qed.

(** ** The Resolver *)

Section ResolverProperties.

Variable net : Type.
Variable http : request -> net -> reply * net.

Local Notation fetch := (fetch_imdb_info http).

(** What a lookup with a key comes to: one GET, and an answer that is a
    record only when the body decodes into one. *)
Lemma fetch_with_key cfg key t w :
  OMDB_API_KEY cfg = Some key ->
  fetch cfg t w =
  (Ok match fst (http (GET (omdb_url t key)) (servers w)) with
      | JsonBody data =>
          match info_of_data data with
          | Ok info => info
          | Raise _ => None
          end
      | _ => None
      end,
   {| servers := snd (http (GET (omdb_url t key)) (servers w));
      sent := sent w ++ [GET (omdb_url t key)] |}).
Proof.
  intros Hkey. unfold fetch_imdb_info. rewrite Hkey.
  unfold try_except, bind, send, lift, ret.
  destruct (http (GET (omdb_url t key)) (servers w)) as [[m|m|m|data] n]; simpl; auto.
  now destruct (info_of_data data).
Qed.

Lemma fetch_never_raises cfg t w :
  exists info w', fetch cfg t w = (Ok info, w').
Proof.
  destruct (OMDB_API_KEY cfg) as [key|] eqn:Hkey.
  - rewrite fetch_with_key with (key := key) by assumption. eauto.
  - unfold fetch_imdb_info. rewrite Hkey. unfold ret. eauto.
Qed.

Lemma replace_space_filter t :
  Py.replace t SPACE [] = filter (fun c => negb (N.eqb c SPACE)) t.
Proof.
  unfold Py.replace in *.
  induction t as [|c t IH]; cbn [flat_map filter]; auto.
  destruct (N.eqb c SPACE); cbn [negb Datatypes.app];
    [exact IH | now rewrite IH].
Qed.

(** C7. Without an OMDb key the Resolver answers every title, without a
    request, with the degraded record: the title itself, an id that is the
    title without its space characters, no cover, and the texts that tell
    of the missing key as genre and plot. *)
Theorem missing_omdb_key_degraded cfg t w :
  OMDB_API_KEY cfg = None ->
  exists i,
    fetch cfg t w = (Ok (Some i), w) /\
    title i = PStr t /\
    imdb_id i = PStr (filter (fun c => negb (N.eqb c SPACE)) t) /\
    genres i = [lit "API Key Missing"] /\
    plot i = PStr (lit "OMDB API Key is missing, unable to fetch movie metadata.") /\
    directors i = [lit "N/A"] /\
    cover_url i = PNone.
Proof.
  intros Hkey. exists (degraded_info t).
  unfold fetch_imdb_info. rewrite Hkey. unfold ret.
  repeat split. simpl. now rewrite replace_space_filter.
Qed.

(** The fields of a record that [info_of_data] builds. *)
Lemma info_of_data_some data i :
  info_of_data data = Ok (Some i) ->
  exists d genre director,
    data = PDict d /\
    Value.eq_str (Value.field_or d (lit "Response") PNone) (lit "False") = false /\
    Value.field_or d (lit "Genre") (PStr []) = PStr genre /\
    Value.field_or d (lit "Director") (PStr []) = PStr director /\
    i = {| title := Value.field_or d (lit "Title") PNone;
           year := Value.field_or d (lit "Year") PNone;
           kind := Value.field_or d (lit "Type") PNone;
           rating := Value.field_or d (lit "imdbRating") PNone;
           genres := Py.split genre (lit ", ");
           plot := Value.field_or d (lit "Plot") PNone;
           directors := Py.split director (lit ", ");
           cover_url :=
             if negb (Value.eq_str (Value.field_or d (lit "Poster") PNone) (lit "N/A"))
             then Value.field_or d (lit "Poster") PNone
             else PNone;
           imdb_id := Value.field_or d (lit "imdbID") PNone |}.
Proof.
  unfold info_of_data. destruct data as [| | | | |d]; try discriminate.
  cbn [Value.get rbind].
  destruct (Value.eq_str (Value.field_or d (lit "Response") PNone) (lit "False")) eqn:E;
    [discriminate|].
  destruct (Value.field_or d (lit "Genre") (PStr [])) as [| | |genre| |] eqn:Eg;
    try discriminate.
  cbn [Value.split rbind].
  destruct (Value.field_or d (lit "Director") (PStr [])) as [| | |director| |] eqn:Ed;
    try discriminate.
  cbn [Value.split rbind].
  intros [= <-]. exists d, genre, director. auto.
Qed.

Lemma eq_str_true v s : Value.eq_str v s = true <-> v = PStr s.
Proof.
  unfold Value.eq_str, Py.str_eqb. split.
  - destruct v; try discriminate.
    destruct (list_eq_dec N.eq_dec s0 s); [congruence|discriminate].
  - intros ->. destruct (list_eq_dec N.eq_dec s s); congruence.
Qed.

Lemma eq_str_false v s : Value.eq_str v s = false <-> v <> PStr s.
Proof.
  rewrite <- eq_str_true. now destruct (Value.eq_str v s).
Qed.

End ResolverProperties.

(** ** Splitting on a separator *)

Section Split.

Import Py.

Lemma startswith_skipn p : forall s,
  startswith s p = true -> s = p ++ skipn (List.length p) s.
Proof.
  induction p as [|a p IH]; intros [|b s]; simpl; auto; try discriminate.
  rewrite andb_true_iff, N.eqb_eq. intros [-> H]. f_equal. auto.
Qed.

Lemma split_from_skip sep pre : forall cur s,
  split_from sep (List.length pre) cur (pre ++ s) = split_from sep 0 cur s.
Proof.
  induction pre as [|a pre IH]; intros cur s; [reflexivity|].
  simpl. apply IH.
Qed.

Lemma split_from_not_nil sep s : forall skip cur, split_from sep skip cur s <> [].
Proof.
  induction s as [|c rest IH]; intros skip cur; simpl; [discriminate|].
  destruct skip; [|apply IH].
  destruct (startswith (c :: rest) sep); [discriminate | apply IH].
Qed.

Lemma join_cons sep p ps :
  ps <> [] -> join sep (p :: ps) = p ++ sep ++ join sep ps.
Proof. destruct ps; [congruence | reflexivity]. Qed.

(** After a match the loop passes over the rest of the separator and goes
    on behind it. *)
Lemma split_from_match sep c rest cur :
  startswith (c :: rest) sep = true -> sep <> [] ->
  exists tail,
    c :: rest = sep ++ tail /\
    (List.length tail < List.length (c :: rest))%nat /\
    split_from sep 0 cur (c :: rest) = cur :: split_from sep 0 [] tail.
Proof.
  intros E Hsep. destruct sep as [|x sep']; [congruence|].
  pose proof (startswith_skipn _ _ E) as Hs.
  set (tail := skipn (List.length (x :: sep')) (c :: rest)) in *.
  exists tail. split; [exact Hs|]. split.
  { pose proof (f_equal (@List.length _) Hs) as Hlen.
    rewrite length_app in Hlen. simpl in Hlen |- *. lia. }
  cbn [split_from]. rewrite E.
  simpl in Hs. injection Hs as _ Hrest.
  rewrite Hrest.
  replace (List.length (x :: sep') - 1)%nat with (List.length sep')
    by (simpl; lia).
  now rewrite split_from_skip.
Qed.

Lemma split_from_no_match sep c rest cur :
  startswith (c :: rest) sep = false ->
  split_from sep 0 cur (c :: rest) = split_from sep 0 (cur ++ [c]) rest.
Proof. intros E. cbn [split_from]. now rewrite E. Qed.

Lemma join_split_from sep :
  sep <> [] ->
  forall n s, (List.length s <= n)%nat ->
  forall cur, join sep (split_from sep 0 cur s) = cur ++ s.
Proof.
  intros Hsep. induction n as [|n IH]; intros [|c rest] Hlen cur;
    try (simpl; now rewrite app_nil_r); [simpl in Hlen; lia|].
  destruct (startswith (c :: rest) sep) eqn:E.
  - destruct (@split_from_match sep c rest cur E Hsep) as (tail & Hs & Hlt & ->).
    rewrite join_cons by apply split_from_not_nil.
    rewrite IH by (simpl in *; lia). now rewrite Hs.
  - rewrite split_from_no_match by assumption.
    rewrite IH by (simpl in *; lia). now rewrite <- app_assoc.
Qed.

(** Joining the pieces with the separator gives the string back. *)
Lemma join_split s sep : sep <> [] -> join sep (split s sep) = s.
Proof.
  intros Hsep. unfold split.
  now rewrite (join_split_from Hsep (n := List.length s)).
Qed.

Lemma app_eq_length {A} (a b x y : list A) :
  a ++ x = b ++ y -> List.length a = List.length b -> a = b /\ x = y.
Proof.
  revert b. induction a as [|h a IH]; intros [|k b]; simpl; try discriminate; auto.
  intros [= -> H] [= Hl]. destruct (IH _ H Hl) as [-> ->]. auto.
Qed.

Lemma clear_of_piece sep cur s :
  sep <> [] -> clear_of sep cur s -> ~ occurs sep cur.
Proof.
  intros Hsep Hclear (a & b & E).
  specialize (Hclear a (b ++ s)).
  rewrite E, <- !app_assoc in Hclear. specialize (Hclear eq_refl).
  rewrite !length_app in Hclear.
  destruct sep; [congruence | simpl in Hclear; lia].
Qed.

Lemma split_from_pieces sep :
  sep <> [] ->
  forall n s, (List.length s <= n)%nat ->
  forall cur, clear_of sep cur s ->
  forall p, In p (split_from sep 0 cur s) -> ~ occurs sep p.
Proof.
  intros Hsep. induction n as [|n IH]; intros [|c rest] Hlen cur Hclear p Hp;
    try (simpl in Hp; destruct Hp as [<-|[]]; now apply clear_of_piece with (s := []));
    [simpl in Hlen; lia|].
  destruct (startswith (c :: rest) sep) eqn:E.
  - destruct (@split_from_match sep c rest cur E Hsep) as (tail & Hs & Hlt & Hsplit).
    rewrite Hsplit in Hp. destruct Hp as [<-|Hp].
    + now apply clear_of_piece with (s := c :: rest).
    + apply (IH tail) with (cur := []); auto; [simpl in *; lia|].
      intros a b _. simpl. lia.
  - rewrite split_from_no_match in Hp by assumption.
    apply (IH rest) with (cur := cur ++ [c]); auto; [simpl in *; lia|].
    intros a b Hab. rewrite <- app_assoc in Hab. simpl in Hab.
    pose proof (Hclear a b Hab) as Hle.
    rewrite length_app. simpl.
    destruct (Nat.eq_dec (List.length cur) (List.length a)) as [Heq|]; [|lia].
    destruct (app_eq_length _ _ _ _ Hab Heq) as [_ Hs].
    rewrite Hs, startswith_app in E. discriminate.
Qed.

(** No piece contains the separator. *)
Lemma split_pieces s sep p :
  sep <> [] -> In p (split s sep) -> ~ occurs sep p.
Proof.
  intros Hsep. unfold split.
  apply (split_from_pieces Hsep (n := List.length s)); auto.
  intros a b _. simpl. lia.
Qed.

End Split.

(** ** Records of a successful lookup, and absences *)

Section LookupProperties.

Variable net : Type.
Variable http : request -> net -> reply * net.

Local Notation fetch := (fetch_imdb_info http).
Local Notation resolve := (resolve_titles http).

Lemma comma_space_not_nil : lit ", " <> [].
Proof. discriminate. Qed.

(** A lookup with a key that returns a record got a dict from the server,
    and the record is the one [info_of_data] builds from it. *)
Lemma fetch_some_inv cfg key t w i w' :
  OMDB_API_KEY cfg = Some key ->
  fetch cfg t w = (Ok (Some i), w') ->
  exists data,
    fst (http (GET (omdb_url t key)) (servers w)) = JsonBody data /\
    info_of_data data = Ok (Some i).
Proof.
  intros Hkey. rewrite fetch_with_key with (key := key) by assumption.
  destruct (fst (http (GET (omdb_url t key)) (servers w))) as [m|m|m|data];
    try discriminate.
  destruct (info_of_data data) as [info|e] eqn:E; try discriminate.
  intros [= -> _]. eauto.
Qed.

(** C8. A lookup that returns a record read a dict whose Genre and Director
    fields (the empty string when one is missing) are strings; the record's
    genres and directors are those strings split on ", ": the pieces in
    order, none containing ", ", and joined with ", " they give the field
    back; its cover is absent when the Poster field is exactly "N/A" and is
    the Poster field otherwise. *)
Theorem successful_lookup_fields cfg key t w i w' :
  OMDB_API_KEY cfg = Some key ->
  fetch cfg t w = (Ok (Some i), w') ->
  exists d genre director,
    fst (http (GET (omdb_url t key)) (servers w)) = JsonBody (PDict d) /\
    Value.field_or d (lit "Genre") (PStr []) = PStr genre /\
    Value.field_or d (lit "Director") (PStr []) = PStr director /\
    genres i = Py.split genre (lit ", ") /\
    directors i = Py.split director (lit ", ") /\
    Py.join (lit ", ") (genres i) = genre /\
    Py.join (lit ", ") (directors i) = director /\
    (forall p, In p (genres i) \/ In p (directors i) -> ~ occurs (lit ", ") p) /\
    (Value.field_or d (lit "Poster") PNone = PStr (lit "N/A") -> cover_url i = PNone) /\
    (Value.field_or d (lit "Poster") PNone <> PStr (lit "N/A") ->
     cover_url i = Value.field_or d (lit "Poster") PNone).
Proof.
  intros Hkey Hfetch.
  destruct (@fetch_some_inv cfg key t w i w' Hkey Hfetch) as (data & Hreply & Hinfo).
  destruct (@info_of_data_some _ i Hinfo) as (d & genre & director & -> & _ & Hg & Hd & ->).
  exists d, genre, director. cbn [genres directors cover_url].
  repeat split; auto using join_split, comma_space_not_nil.
  - intros p [Hp|Hp]; eapply split_pieces; eauto using comma_space_not_nil.
  - intros ->. reflexivity.
  - intros Hne. apply eq_str_false in Hne. now rewrite Hne.
Qed.

(** C10. When the dict of a lookup that returns a record has no Genre key,
    the record's genres are the one-element list of the empty string; the
    same for Director and directors. *)
Theorem missing_genre_is_empty_string cfg key t w i w' d :
  OMDB_API_KEY cfg = Some key ->
  fetch cfg t w = (Ok (Some i), w') ->
  fst (http (GET (omdb_url t key)) (servers w)) = JsonBody (PDict d) ->
  (Value.lookup d (lit "Genre") = None -> genres i = [[]]) /\
  (Value.lookup d (lit "Director") = None -> directors i = [[]]).
Proof.
  intros Hkey Hfetch Hreply.
  destruct (@fetch_some_inv cfg key t w i w' Hkey Hfetch) as (data & Hreply' & Hinfo).
  rewrite Hreply in Hreply'. injection Hreply' as <-.
  destruct (@info_of_data_some _ i Hinfo) as (d' & genre & director & [= <-] & _ & Hg & Hd & ->).
  cbn [genres directors]. unfold Value.field_or in Hg, Hd.
  split; intros Hnone.
  - rewrite Hnone in Hg. injection Hg as <-. reflexivity.
  - rewrite Hnone in Hd. injection Hd as <-. reflexivity.
Qed.

(** The loop of [run] never raises: it returns the records gathered so far
    followed by the kept answers of the lookups. *)
Lemma resolve_titles_lookups cfg excluded titles : forall results w,
  exists w',
    resolve cfg excluded titles results w =
    (Ok (results ++ kept excluded (lookups http cfg titles w)), w').
Proof.
  induction titles as [|t rest IH]; intros results w.
  - exists w. simpl. unfold ret. now rewrite app_nil_r.
  - destruct (fetch_never_raises http cfg t w) as (info & w1 & Hf).
    cbn [resolve_titles lookups]. unfold bind. rewrite Hf.
    destruct info as [i|]; cbn [kept flat_map].
    + destruct (keeps excluded (Some i)).
      * destruct (IH (results ++ [i]) w1) as (w' & ->).
        exists w'. now rewrite <- app_assoc.
      * apply IH.
    + apply IH.
Qed.

Lemma kept_length excluded infos :
  (List.length (kept excluded infos) <= List.length infos)%nat.
Proof.
  induction infos as [|info infos IH]; [simpl; lia|].
  change (kept excluded (info :: infos))
    with (match info with
          | Some i => if keeps excluded info then [i] else []
          | None => []
          end ++ kept excluded infos).
  rewrite length_app.
  destruct info as [i|]; [destruct (keeps excluded (Some i))|]; simpl; lia.
Qed.

Lemma lookups_length cfg titles : forall w,
  List.length (lookups http cfg titles w) = List.length titles.
Proof.
  induction titles as [|t rest IH]; intros w; simpl; auto.
  destruct (fetch_never_raises http cfg t w) as (info & w1 & ->).
  simpl. now rewrite IH.
Qed.

(** C6. With an OMDb key, a lookup sends its one request and returns without
    raising; it returns absent when the server reports no match, when the
    request or the decoding of its body fails, and when the body cannot be
    read as a record; and the loop over a batch of titles never stops at an
    absent answer: it asks for every title and ends with the page of all the
    kept answers, in the order of the titles, so that an absent answer takes
    nothing from the page but its own record. *)
Theorem resolver_failures_are_absences cfg key t w :
  OMDB_API_KEY cfg = Some key ->
  let req := GET (omdb_url t key) in
  let answer := fst (http req (servers w)) in
  (exists info,
     fetch cfg t w =
     (Ok info, {| servers := snd (http req (servers w)); sent := sent w ++ [req] |})) /\
  (forall d, answer = JsonBody (PDict d) ->
     Value.lookup d (lit "Response") = Some (PStr (lit "False")) ->
     fst (fetch cfg t w) = Ok None) /\
  (forall m, answer = TransportFailure m \/ answer = HttpErrorStatus m
             \/ answer = InvalidBody m ->
     fst (fetch cfg t w) = Ok None) /\
  (forall data e, answer = JsonBody data -> info_of_data data = Raise e ->
     fst (fetch cfg t w) = Ok None) /\
  (forall excluded titles, exists w',
     resolve cfg excluded titles [] w
     = (Ok (kept excluded (lookups http cfg titles w)), w') /\
     List.length (lookups http cfg titles w) = List.length titles /\
     (List.length (kept excluded (lookups http cfg titles w))
      <= List.length titles)%nat) /\
  (forall excluded before after,
     kept excluded (before ++ None :: after) = kept excluded (before ++ after)).
Proof.
  intros Hkey req answer.
  rewrite fetch_with_key with (key := key) by assumption.
  fold req. fold answer. cbn [fst].
  split; [eauto|]. split; [|split; [|split; [|split]]].
  - intros d -> Hresp. unfold info_of_data. cbn [Value.get rbind].
    unfold Value.field_or. now rewrite Hresp.
  - intros m [-> | [-> | ->]]; reflexivity.
  - intros data e -> ->. reflexivity.
  - intros excluded titles.
    destruct (resolve_titles_lookups cfg excluded titles [] w) as (w' & ->).
    exists w'. split; [reflexivity|].
    split; [apply lookups_length|].
    rewrite <- (lookups_length cfg titles w). apply kept_length.
  - intros excluded before after. unfold kept.
    now rewrite !flat_map_app.
Qed.

End LookupProperties.

Lemma resolver_failures_are_absences_witness :
  OMDB_API_KEY sample_cfg = Some (lit "o-key") /\
  fetch_imdb_info (sample_http []) sample_cfg (lit "Heat") sample_world
  = (Ok None, sample_world_after [sample_get (lit "Heat")]) /\
  fst (fetch_imdb_info (sample_http []) sample_cfg (lit "Solaris 3") sample_world)
  = Ok None /\
  fst (resolve_titles (sample_http []) sample_cfg []
         [lit "Heat"; lit "Solaris 3"; lit "Inception"; lit "Arrival"] []
         sample_world)
  = Ok [inception_info; arrival_info].
Proof.
  split; [reflexivity|].
  destruct (@resolver_failures_are_absences unit (sample_http []) sample_cfg
              (lit "o-key") (lit "Heat") sample_world eq_refl)
    as ((info & Hsent) & _ & Hfail & _ & Hbatch & _).
  destruct (@resolver_failures_are_absences unit (sample_http []) sample_cfg
              (lit "o-key") (lit "Solaris 3") sample_world eq_refl)
    as (_ & Hnone & _).
  split; [|split].
  - specialize (Hfail (lit "timed out") (or_introl eq_refl)).
    rewrite Hsent in Hfail |- *. simpl in Hfail. now rewrite Hfail.
  - apply (Hnone [(lit "Response", PStr (lit "False"));
                  (lit "Error", PStr (lit "Movie not found!"))]); reflexivity.
  - destruct (Hbatch []
                [lit "Heat"; lit "Solaris 3"; lit "Inception"; lit "Arrival"])
      as (w' & Hpage & _).
    rewrite Hpage. reflexivity.
Defined.

Lemma missing_omdb_key_degraded_witness :
  OMDB_API_KEY sample_cfg_no_keys = None /\
  exists i,
    fetch_imdb_info (sample_http []) sample_cfg_no_keys (lit "The Dark Knight")
      sample_world = (Ok (Some i), sample_world) /\
    imdb_id i = PStr (lit "TheDarkKnight").
Proof.
  split; [reflexivity|].
  destruct (@missing_omdb_key_degraded unit (sample_http []) sample_cfg_no_keys
              (lit "The Dark Knight") sample_world eq_refl)
    as (i & Hfetch & _ & Hid & _).
  exists i. split; [exact Hfetch | exact Hid].
Defined.

Lemma successful_lookup_fields_witness :
  OMDB_API_KEY sample_cfg = Some (lit "o-key") /\
  fetch_imdb_info (sample_http []) sample_cfg (lit "Inception") sample_world
  = (Ok (Some inception_info), sample_world_after [sample_get (lit "Inception")]) /\
  Py.join (lit ", ") (genres inception_info) = lit "Action, Adventure, Sci-Fi" /\
  cover_url inception_info = PNone.
Proof.
  split; [reflexivity|]. split; [reflexivity|].
  destruct (@successful_lookup_fields unit (sample_http []) sample_cfg (lit "o-key")
              (lit "Inception") sample_world inception_info
              (sample_world_after [sample_get (lit "Inception")]) eq_refl eq_refl)
    as (d & genre & director & Hd & Hg & _ & _ & _ & Hjoin & _ & _ & Hna & _).
  injection Hd as <-. injection Hg as <-.
  split; [exact Hjoin | exact (Hna eq_refl)].
Defined.

Lemma missing_genre_is_empty_string_witness :
  OMDB_API_KEY sample_cfg = Some (lit "o-key") /\
  fetch_imdb_info (sample_http []) sample_cfg (lit "Arrival") sample_world
  = (Ok (Some arrival_info), sample_world_after [sample_get (lit "Arrival")]) /\
  genres arrival_info = [[]] /\ directors arrival_info = [[]].
Proof.
  split; [reflexivity|]. split; [reflexivity|].
  destruct (@missing_genre_is_empty_string unit (sample_http []) sample_cfg (lit "o-key")
              (lit "Arrival") sample_world arrival_info
              (sample_world_after [sample_get (lit "Arrival")])
              [(lit "Title", PStr (lit "Arrival")); (lit "Year", PStr (lit "2016"));
               (lit "Poster", PStr (lit "https://img.example/arrival.jpg"));
               (lit "imdbID", PStr (lit "tt2543164"));
               (lit "Response", PStr (lit "True"))]
              eq_refl eq_refl eq_refl)
    as (Hg & Hd).
  split; [exact (Hg eq_refl) | exact (Hd eq_refl)].
Defined.

(** ** Pages *)

Section PageProperties.

Variable net : Type.
Variable http : request -> net -> reply * net.
Variable json_dumps : pyval -> pystr.
Variable textwrap_dedent : pystr -> pystr.
Variable builtin_str : exn -> pystr.

Local Notation generate := (generate_recommendations http json_dumps textwrap_dedent).
Local Notation worker_run := (run http json_dumps textwrap_dedent builtin_str).

(** A page is the kept answers of the lookups of the run's titles. *)
Lemma run_finished_inv cfg self w page w' :
  worker_run cfg self w = (finished page, w') ->
  exists titles w0,
    titles_of_run http json_dumps textwrap_dedent cfg self w titles w0 /\
    page = kept (excluded_ids self) (lookups http cfg titles w0).
Proof.
  unfold run, bind, titles_of_run.
  destruct (pre_defined_titles self) as [[|t ts]|].
  - destruct (generate cfg _ _ _ w) as [[titles|e] w0]; [|discriminate].
    destruct (resolve_titles_lookups http cfg (excluded_ids self) titles [] w0)
      as (w1 & ->).
    intros [= <- _]. eauto.
  - unfold ret. cbv beta iota.
    destruct (resolve_titles_lookups http cfg (excluded_ids self) (t :: ts) [] w)
      as (w1 & ->).
    intros [= <- _]. eauto.
  - destruct (generate cfg _ _ _ w) as [[titles|e] w0]; [|discriminate].
    destruct (resolve_titles_lookups http cfg (excluded_ids self) titles [] w0)
      as (w1 & ->).
    intros [= <- _]. eauto.
Qed.

Lemma kept_filter excluded infos :
  kept excluded infos = filter (fun i => keeps excluded (Some i)) (present infos).
Proof.
  induction infos as [|info infos IH]; [reflexivity|].
  change (kept excluded (info :: infos))
    with (match info with
          | Some i => if keeps excluded info then [i] else []
          | None => []
          end ++ kept excluded infos).
  change (present (info :: infos))
    with (match info with Some i => [i] | None => [] end ++ present infos).
  rewrite filter_app, IH. f_equal.
  destruct info as [i|]; [|reflexivity].
  cbn [filter]. now destruct (keeps excluded (Some i)).
Qed.

Lemma keeps_outside excluded r :
  keeps excluded (Some r) = true ->
  Value.truthy (imdb_id r) = true /\
  forall id, In id excluded -> imdb_id r <> PStr id.
Proof.
  unfold keeps. rewrite andb_true_iff, negb_true_iff.
  intros [Ht Hin]. split; [exact Ht|].
  intros id Hid Heq. unfold Value.in_strs in Hin.
  assert (existsb (Value.eq_str (imdb_id r)) excluded = true) as Hex.
  { apply existsb_exists. exists id. split; [exact Hid|]. now apply eq_str_true. }
  congruence.
Qed.

Lemma page_records_kept cfg self w page w' :
  worker_run cfg self w = (finished page, w') ->
  forall r, In r page -> keeps (excluded_ids self) (Some r) = true.
Proof.
  intros Hrun r Hr.
  destruct (run_finished_inv _ _ _ Hrun) as (titles & w0 & _ & ->).
  rewrite kept_filter in Hr. now apply filter_In in Hr as [_ Hkeep].
Qed.

(** C2. Every record of a page that [run] emits has an id that is not in
    the exclusion list the worker was given (and that is not empty). *)
Theorem page_avoids_excluded cfg self w page w' :
  worker_run cfg self w = (finished page, w') ->
  forall r, In r page ->
    Value.truthy (imdb_id r) = true /\
    forall id, In id (excluded_ids self) -> imdb_id r <> PStr id.
Proof.
  intros Hrun r Hr. apply keeps_outside.
  eapply page_records_kept; eauto.
Qed.

(** A page asked for with the ids of an earlier page in the exclusion list
    shares no id with that page. *)
Lemma next_page_disjoint cfg self1 w1 page1 w1' self2 w2 page2 w2' :
  worker_run cfg self1 w1 = (finished page1, w1') ->
  worker_run cfg self2 w2 = (finished page2, w2') ->
  (forall r id, In r page1 -> imdb_id r = PStr id -> In id (excluded_ids self2)) ->
  forall r1 r2 id,
    In r1 page1 -> In r2 page2 -> imdb_id r1 = PStr id -> imdb_id r2 <> PStr id.
Proof.
  intros _ Hrun2 Hexcl r1 r2 id Hr1 Hr2 Hid.
  apply (keeps_outside (excluded_ids self2)).
  - eapply page_records_kept; eauto.
  - eapply Hexcl; eauto.
Qed.

Lemma NoDup_map_filter {A B} (f : A -> B) (p : A -> bool) l :
  NoDup (map f l) -> NoDup (map f (filter p l)).
Proof.
  induction l as [|x l IH]; simpl; auto.
  intros H. inversion H as [|? ? Hnotin Hnd]; subst.
  destruct (p x); simpl; auto.
  constructor; auto.
  intros Hin. apply Hnotin.
  apply in_map_iff in Hin as (y & Hy & Hin%filter_In).
  apply in_map_iff. exists y. tauto.
Qed.

(** C3, amended. A page holds, in the order of the titles, the record of
    every title whose lookup returned one with a non-empty id outside the
    exclusion list the worker was given; ids are not compared with one
    another, so the ids of a page are pairwise distinct whenever the ids of
    the records that the lookups returned are. *)
Theorem page_is_kept_lookups cfg self w page w' :
  worker_run cfg self w = (finished page, w') ->
  exists titles w0,
    titles_of_run http json_dumps textwrap_dedent cfg self w titles w0 /\
    page = filter (fun i => keeps (excluded_ids self) (Some i))
             (present (lookups http cfg titles w0)) /\
    (NoDup (map imdb_id (present (lookups http cfg titles w0))) ->
     NoDup (map imdb_id page)).
Proof.
  intros Hrun.
  destruct (run_finished_inv _ _ _ Hrun) as (titles & w0 & Htitles & ->).
  exists titles, w0. rewrite kept_filter.
  split; [exact Htitles|]. split; [reflexivity|].
  apply NoDup_map_filter.
Qed.

End PageProperties.

(** C3, as stated, fails: the Generator's two lines resolve to the same
    record, nothing is excluded, and the page holds it twice. *)
Lemma duplicate_titles_give_duplicate_ids :
  sample_run duplicate_response sample_cfg (sample_worker [])
  = (finished [inception_info; inception_info],
     sample_world_after
       [sample_post; sample_get (lit "Inception"); sample_get (lit "Inception")]) /\
  ~ NoDup (map imdb_id [inception_info; inception_info]).
Proof.
  split; [reflexivity|].
  intros H. inversion H as [|? ? Hnotin _]; subst.
  apply Hnotin. now left.
Qed.

Lemma page_avoids_excluded_witness :
  sample_run two_titles_response sample_cfg (sample_worker [lit "tt1375666"])
  = (finished [arrival_info],
     sample_world_after
       [POST (gemini_url (lit "g-key"))
          {| text := prompt_of (fun p => p) (lit "dark comedies") (lit "movie")
                       (lit "tt1375666") 10;
             inline_data := None;
             maxOutputTokens := 2000 |};
        sample_get (lit "Inception"); sample_get (lit "Arrival")]) /\
  imdb_id arrival_info <> PStr (lit "tt1375666").
Proof.
  split; [reflexivity|].
  apply (@page_avoids_excluded unit (sample_http two_titles_response) (fun _ => [])
           (fun p => p) (fun _ => []) sample_cfg (sample_worker [lit "tt1375666"])
           sample_world [arrival_info] _ eq_refl arrival_info (or_introl eq_refl)).
  now left.
Defined.

Lemma page_is_kept_lookups_witness :
  exists titles w0,
    titles_of_run (sample_http two_titles_response) (fun _ => []) (fun p => p)
      sample_cfg (sample_worker []) sample_world titles w0 /\
    [inception_info; arrival_info]
    = filter (fun i => keeps [] (Some i))
        (present (lookups (sample_http two_titles_response) sample_cfg titles w0)) /\
    (NoDup (map imdb_id
              (present (lookups (sample_http two_titles_response) sample_cfg titles w0))) ->
     NoDup (map imdb_id [inception_info; arrival_info])).
Proof.
  apply (@page_is_kept_lookups unit (sample_http two_titles_response) (fun _ => [])
           (fun p => p) (fun _ => []) sample_cfg (sample_worker []) sample_world
           [inception_info; arrival_info]
           (sample_world_after
              [sample_post; sample_get (lit "Inception"); sample_get (lit "Arrival")])).
  reflexivity.
Defined.

Example two_titles_scenario :
  sample_run two_titles_response sample_cfg (sample_worker [])
  = (finished [inception_info; arrival_info],
     sample_world_after
       [sample_post; sample_get (lit "Inception"); sample_get (lit "Arrival")]).
Proof. reflexivity. Qed.

Example pre_defined_scenario :
  sample_run [] sample_cfg_no_keys
    {| query_text := []; search_type := lit "movie";
       pre_defined_titles := Some [lit "Mad Max: Fury Road"];
       excluded_ids := [] |}
  = (finished [degraded_info (lit "Mad Max: Fury Road")], sample_world).
Proof. reflexivity. Qed.

(** The Gemini call when the answer is not the expected envelope. *)
Example envelope_without_candidates :
  reply_run (JsonBody (PDict [(lit "error", PStr (lit "quota"))]))
  = (finished [], sample_world_after [sample_post; sample_get (lit "{}")]).
Proof. reflexivity. Qed.

Example envelope_is_a_list :
  reply_run (JsonBody (PList []))
  = (error (lit "raised by the interpreter"), sample_world_after [sample_post]).
Proof. reflexivity. Qed.

Example gemini_times_out :
  reply_run (TransportFailure (lit "timed out"))
  = (error (lit "timed out"), sample_world_after [sample_post]).
Proof. reflexivity. Qed.

Example empty_text_has_no_titles :
  reply_run (JsonBody (gemini_body []))
  = (error no_titles_msg, sample_world_after [sample_post]).
Proof. reflexivity. Qed.

(** ** What the parser hands on *)

Section TitleProperties.

Import Py.

Lemma lstrip_incl s c : In c (lstrip s) -> In c s.
Proof.
  induction s as [|a t IH]; simpl; auto.
  destruct (isspace a); simpl; auto.
Qed.

Lemma rstrip_incl s c : In c (rstrip s) -> In c s.
Proof.
  induction s as [|a t IH]; simpl; auto.
  destruct (rstrip t) as [|r rs].
  - destruct (isspace a); simpl; tauto.
  - intros [->|H]; auto.
Qed.

Lemma strip_incl s c : In c (strip s) -> In c s.
Proof. intros H. now apply lstrip_incl, rstrip_incl. Qed.

Lemma skipn_incl {A} n (l : list A) x : In x (skipn n l) -> In x l.
Proof.
  revert l. induction n as [|n IH]; intros [|a l]; simpl; auto.
Qed.

Lemma replace_nbsp_incl s c :
  In c (replace s NBSP [SPACE]) -> c <> NBSP /\ (c = SPACE \/ In c s).
Proof.
  unfold replace. rewrite in_flat_map. intros (x & Hx & Hc).
  destruct (N.eqb_spec x NBSP) as [->|Hne]; simpl in Hc.
  - destruct Hc as [<-|[]]. split; [discriminate | now left].
  - destruct Hc as [<-|[]]. auto.
Qed.

Lemma strip_marker_loop_incl temp_l l seps c :
  In c (strip_marker_loop temp_l l seps) -> In c l.
Proof.
  rewrite strip_marker_loop_find.
  destruct (find (startswith temp_l) seps); auto.
  intros H. eapply skipn_incl, strip_incl, H.
Qed.

Lemma space_not_linebreak : is_linebreak SPACE = false.
Proof. reflexivity. Qed.

Lemma cleaned_title_eq count l :
  cleaned_title count l =
  strip (replace (strip (strip_marker_loop (strip l) l (separators count)))
           NBSP [SPACE]).
Proof. reflexivity. Qed.

(** A title that the loop keeps is clean when its line holds no line
    boundary. *)
Lemma cleaned_title_clean_title count l :
  (forall c, In c l -> is_linebreak c = false) ->
  truthy_str (cleaned_title count l) = true ->
  clean_title (cleaned_title count l).
Proof.
  intros Hl Hne. unfold clean_title. split; [|split; [|split]].
  - destruct (cleaned_title count l); [discriminate | discriminate].
  - rewrite cleaned_title_eq. apply strip_idem.
  - rewrite cleaned_title_eq. intros H%strip_incl%replace_nbsp_incl. tauto.
  - rewrite cleaned_title_eq. intros c H%strip_incl%replace_nbsp_incl.
    destruct H as [_ [->|H]]; [apply space_not_linebreak|].
    apply Hl. eapply strip_marker_loop_incl, strip_incl, H.
Qed.

(** The lines of [splitlines] hold no line boundary. *)
Lemma splitlines_from_no_linebreak n : forall s cur,
  (List.length s <= n)%nat ->
  (forall c, In c cur -> is_linebreak c = false) ->
  forall l, In l (splitlines_from cur s) ->
  forall c, In c l -> is_linebreak c = false.
Proof.
  induction n as [|n IH]; intros [|a rest] cur Hlen Hcur l Hl c Hc;
    try (simpl in Hlen; lia).
  - simpl in Hl. destruct cur; [destruct Hl|].
    destruct Hl as [<-|[]]. auto.
  - simpl in Hl. destruct cur; [destruct Hl|].
    destruct Hl as [<-|[]]. auto.
  - cbn [splitlines_from] in Hl. destruct (is_linebreak a) eqn:Ea.
    + destruct Hl as [<-|Hl]; [auto|].
      destruct rest as [|b rest2]; [destruct Hl|].
      destruct ((a =? 13)%N && (b =? 10)%N).
      * apply (IH rest2 []) with (l := l); auto; [simpl in *; lia|].
        intros ? [].
      * apply (IH (b :: rest2) []) with (l := l); auto; [simpl in *; lia|].
        intros ? [].
    + apply (IH rest (cur ++ [a])) with (l := l); auto; [simpl in *; lia|].
      intros x [Hx|[<-|[]]]%in_app_or; auto.
Qed.

Lemma stripped_lines_no_linebreak raw l :
  In l (stripped_lines (splitlines raw)) ->
  forall c, In c l -> is_linebreak c = false.
Proof.
  unfold stripped_lines. rewrite in_map_iff.
  intros (x & <- & [Hx _]%filter_In) c Hc%strip_incl.
  eapply (splitlines_from_no_linebreak (n := List.length raw)); eauto.
  intros ? [].
Qed.

Lemma collect_titles_Forall (P : pystr -> Prop) count lines : forall titles,
  Forall P titles ->
  (forall l, In l lines -> truthy_str (cleaned_title count l) = true ->
             P (cleaned_title count l)) ->
  Forall P (collect_titles count titles lines).
Proof.
  induction lines as [|l rest IH]; intros titles Ht Hl; simpl; auto.
  assert (forall l', In l' rest ->
            truthy_str (cleaned_title count l') = true ->
            P (cleaned_title count l')) as Hrest
    by (intros; apply Hl; [now right | assumption]).
  destruct (truthy_str (cleaned_title count l)) eqn:E; [|now apply IH].
  assert (Forall P (titles ++ [cleaned_title count l])) as Ht'.
  { apply Forall_app. split; auto. constructor; auto. apply Hl; auto. now left. }
  destruct (_ >=? _)%Z; auto.
Qed.

(** X1. Every title that the parser returns is clean: not empty, without
    white space around it, without a non-breaking space and without a line
    boundary. *)
Theorem parsed_titles_are_clean raw count titles :
  parse_response raw count = Ok titles ->
  Forall clean_title titles.
Proof.
  unfold parse_response. destruct raw as [| | |s| |]; try discriminate.
  cbn [Value.splitlines rbind].
  destruct (collect_titles count [] (stripped_lines (splitlines s))) eqn:E;
    [discriminate|].
  intros [= <-]. rewrite <- E.
  apply collect_titles_Forall; [constructor|].
  intros line Hline Hne. apply cleaned_title_clean_title; auto.
  now apply stripped_lines_no_linebreak with (raw := s).
Qed.

(** The loop stops at [count] titles, or at one when [count] is less. *)
Lemma collect_titles_length count lines : forall titles,
  (List.length (collect_titles count titles lines)
   <= Nat.max (List.length titles + 1) (Z.to_nat count))%nat.
Proof.
  induction lines as [|l rest IH]; intros titles; simpl; [lia|].
  destruct (truthy_str (cleaned_title count l)).
  - destruct (Z.geb_spec (Z.of_nat (List.length (titles ++ [cleaned_title count l]))) count)
      as [Hge|Hlt].
    + rewrite length_app. simpl. lia.
    + specialize (IH (titles ++ [cleaned_title count l])).
      rewrite length_app in *. simpl in *. lia.
  - specialize (IH titles). lia.
Qed.

(** X2. The parser returns at least one title and at most [count] of them
    (at most one when [count] is below one). *)
Theorem parsed_titles_count raw count titles :
  parse_response raw count = Ok titles ->
  (1 <= List.length titles <= Nat.max 1 (Z.to_nat count))%nat.
Proof.
  unfold parse_response. destruct raw as [| | |s| |]; try discriminate.
  cbn [Value.splitlines rbind].
  pose proof (collect_titles_length count (stripped_lines (splitlines s)) []) as Hlen.
  destruct (collect_titles count [] (stripped_lines (splitlines s))) eqn:E;
    [discriminate|].
  intros [= <-]. simpl in *. lia.
Qed.

End TitleProperties.

Lemma parsed_titles_are_clean_witness :
  Forall clean_title
    [lit "Here you go:"; lit "Inception"; lit "Arrival"; lit "Heat"; lit "10. Up 2"].
Proof.
  apply (@parsed_titles_are_clean (PStr sample_response) 5). reflexivity.
Defined.

Lemma parsed_titles_count_witness :
  parse_response (PStr sample_response) 5
  = Ok [lit "Here you go:"; lit "Inception"; lit "Arrival"; lit "Heat"; lit "10. Up 2"] /\
  (1 <= List.length [lit "Here you go:"; lit "Inception"; lit "Arrival"; lit "Heat";
                     lit "10. Up 2"]
   <= Nat.max 1 (Z.to_nat 5))%nat.
Proof.
  split; [reflexivity|].
  apply (@parsed_titles_count (PStr sample_response) 5
           [lit "Here you go:"; lit "Inception"; lit "Arrival"; lit "Heat";
            lit "10. Up 2"]).
  reflexivity.
Defined.

(** ** Markers that are removed *)

Section MarkersRemoved.

Import Py.

(** [find] returns a match when every match in the list is that one. *)
Lemma find_only {A} (f : A -> bool) l m :
  In m l -> f m = true ->
  (forall x, In x l -> f x = true -> x = m) ->
  find f l = Some m.
Proof.
  induction l as [|x l IH]; simpl; [tauto|].
  intros Hin Hm Honly. destruct (f x) eqn:E.
  - f_equal. apply Honly; auto.
  - destruct Hin as [->|Hin]; [congruence|].
    apply IH; auto.
Qed.

Lemma skipn_length_app {A} (p t : list A) : skipn (List.length p) (p ++ t) = t.
Proof. induction p; simpl; auto. Qed.

Lemma is_digit_not_bullet c : is_digit c = true -> ~ In [c] Spec.bullet_markers.
Proof.
  unfold is_digit. intros Hc.
  apply andb_true_iff in Hc as [H1%N.leb_le H2%N.leb_le].
  intros [E|[E|[E|[]]]]; injection E as E; unfold BULLET in *; lia.
Qed.

(** The separators that a line beginning with the numeral of a number of
    [1..count] and a dot starts with: only that numeral and the dot. *)
Lemma numeral_marker_found count k rest :
  (1 <= k <= count)%Z ->
  find (startswith (str_int k ++ DOT :: rest)) (separators count)
  = Some (str_int k ++ [DOT]).
Proof.
  intros Hk.
  assert (0 <= k)%Z as Hk0 by lia.
  destruct (str_int_digits Hk0) as (c & cs & Ek & Dk).
  apply find_only.
  - unfold separators. apply in_or_app. left.
    apply in_map_iff. exists k. split; [reflexivity|]. apply in_range. lia.
  - change (?p ++ DOT :: ?t) with (p ++ [DOT] ++ t).
    rewrite app_assoc. apply startswith_app.
  - intros sep Hsep Hmatch. unfold separators in Hsep.
    apply in_app_or in Hsep as [Hnum|Hbul].
    + apply in_map_iff in Hnum as (i & <- & Hi%in_range).
      assert (0 <= i)%Z as Hi0 by lia.
      destruct (str_int_digits Hi0) as (d & ds & Ei & Di).
      change (lit ".") with [DOT] in *.
      f_equal. rewrite Ei, Ek in *. eapply digits_dot_prefix; eauto.
    + exfalso. rewrite Ek, <- app_comm_cons in Hmatch.
      inversion Dk; subst.
      rewrite digit_not_bullet in Hmatch by assumption. discriminate.
Qed.

(** X3. A line that begins with the numeral of a number of [1..count] and a
    dot gives the text behind the dot, trimmed and normalized: the whole
    numeral goes, also one that begins with a smaller one, and nothing
    else. *)
Theorem numbered_line_loses_its_number count k rest :
  (1 <= k <= count)%Z ->
  cleaned_title count (str_int k ++ DOT :: rest)
  = strip (replace (strip rest) NBSP [SPACE]).
Proof.
  intros Hk.
  assert (0 <= k)%Z as Hk0 by lia.
  destruct (str_int_digits Hk0) as (c & cs & Ek & Dk).
  rewrite cleaned_title_eq, strip_marker_loop_find.
  assert (strip (str_int k ++ DOT :: rest) = str_int k ++ DOT :: rstrip rest) as ->.
  { rewrite Ek. now apply strip_numeral_dot. }
  rewrite numeral_marker_found by assumption.
  assert (skipn (List.length (str_int k ++ [DOT])) (str_int k ++ DOT :: rest) = rest)
    as ->.
  { replace (str_int k ++ DOT :: rest) with ((str_int k ++ [DOT]) ++ rest)
      by now rewrite <- app_assoc.
    apply skipn_length_app. }
  now rewrite strip_idem.
Qed.

Lemma bullet_not_space b : In [b] Spec.bullet_markers -> isspace b = false.
Proof. intros [E|[E|[E|[]]]]; injection E as <-; reflexivity. Qed.

Lemma bullet_not_digit b : In [b] Spec.bullet_markers -> is_digit b = false.
Proof. intros [E|[E|[E|[]]]]; injection E as <-; reflexivity. Qed.

Lemma bullet_marker_found count b rest :
  In [b] Spec.bullet_markers ->
  find (startswith (b :: rest)) (separators count) = Some [b].
Proof.
  intros Hb. apply find_only.
  - unfold separators. apply in_or_app. now right.
  - cbn [startswith]. now rewrite N.eqb_refl.
  - intros sep Hsep Hmatch. unfold separators in Hsep.
    apply in_app_or in Hsep as [Hnum|Hbul].
    + exfalso. apply in_map_iff in Hnum as (i & <- & Hi%in_range).
      assert (0 <= i)%Z as Hi0 by lia.
      destruct (str_int_digits Hi0) as (d & ds & Ei & Di).
      cbv beta in Hmatch. rewrite Ei in Hmatch.
      change ((d :: ds) ++ lit ".") with (d :: (ds ++ lit ".")) in Hmatch.
      rewrite startswith_cons in Hmatch.
      apply andb_true_iff in Hmatch as [->%N.eqb_eq _].
      inversion Di as [|? ? Hd _]; subst.
      rewrite bullet_not_digit in Hd by assumption. discriminate.
    + destruct Hbul as [<-|[<-|[<-|[]]]];
        [change (lit "-") with [45%N] in *
        |unfold BULLET in *
        |change (lit "*") with [42%N] in *];
        rewrite startswith_cons in Hmatch;
        apply andb_true_iff in Hmatch as [->%N.eqb_eq _]; reflexivity.
Qed.

(** X4. A line that begins with one of the bullets gives the text behind
    that bullet, trimmed and normalized, whatever the count: one bullet
    goes, and a second one behind it stays. *)
Theorem bulleted_line_loses_one_bullet count b rest :
  In [b] Spec.bullet_markers ->
  cleaned_title count (b :: rest) = strip (replace (strip rest) NBSP [SPACE]).
Proof.
  intros Hb.
  rewrite cleaned_title_eq, strip_marker_loop_find.
  assert (strip (b :: rest) = b :: rstrip rest) as ->.
  { unfold strip. cbn [lstrip]. rewrite bullet_not_space by assumption.
    apply rstrip_cons_nonspace. now apply bullet_not_space. }
  rewrite bullet_marker_found by assumption.
  cbn [List.length skipn]. now rewrite strip_idem.
Qed.

End MarkersRemoved.

Lemma numbered_line_loses_its_number_witness :
  (1 <= 10 <= 10)%Z /\
  cleaned_title 10 (Py.str_int 10 ++ DOT :: lit " Up") = lit "Up".
Proof.
  split; [lia|].
  apply (@numbered_line_loses_its_number 10 10 (lit " Up")). lia.
Defined.

Lemma bulleted_line_loses_one_bullet_witness :
  In [BULLET] Spec.bullet_markers /\
  cleaned_title 3 (BULLET :: lit " - Heat") = lit "- Heat".
Proof.
  split; [right; left; reflexivity|].
  apply (@bulleted_line_loses_one_bullet 3 BULLET (lit " - Heat")).
  right; left; reflexivity.
Defined.

(** ** The Gemini call *)

Section GeminiCall.

Variable net : Type.
Variable http : request -> net -> reply * net.
Variable json_dumps : pyval -> pystr.

Local Notation gemini := (direct_gemini_api_call http json_dumps).

(** Subscripting raises nothing but [KeyError], [IndexError] and
    [TypeError]. *)
Lemma candidate_text_raises data e :
  candidate_text data = Raise e -> e = KeyError \/ e = IndexError \/ e = TypeError.
Proof.
  assert (forall v k e', Value.getitem_key v k = Raise e' ->
                         e' = KeyError \/ e' = TypeError) as Hkey.
  { intros v k e'. destruct v as [| | | | |d]; simpl; try (intros [= <-]; auto).
    destruct (Value.lookup d k); [discriminate | intros [= <-]; auto]. }
  assert (forall v e', Value.getitem_0 v = Raise e' ->
                       e' = KeyError \/ e' = IndexError \/ e' = TypeError) as Hidx.
  { intros v e'. destruct v as [| | |s|l|d]; simpl; try (intros [= <-]; auto).
    - destruct s; [intros [= <-]; auto | discriminate].
    - destruct l; [intros [= <-]; auto | discriminate]. }
  unfold candidate_text, rbind.
  repeat match goal with
         | |- context [match Value.getitem_key ?v ?k with _ => _ end] =>
             let E := fresh "E" in
             destruct (Value.getitem_key v k) eqn:E;
             [| intros [= <-]; apply Hkey in E; tauto]
         | |- context [match Value.getitem_0 ?v with _ => _ end] =>
             let E := fresh "E" in
             destruct (Value.getitem_0 v) eqn:E;
             [| intros [= <-]; apply Hidx in E; tauto]
         end.
  intros H. apply Hkey in H. tauto.
Qed.

Ltac finish_outcome :=
  eexists; split; [reflexivity|];
  repeat split; intros;
  repeat match goal with H : _ \/ _ |- _ => destruct H end;
  congruence.

(** X5. With a key, the Gemini call sends exactly its one POST and then
    returns the text of the envelope when the path to it exists, returns
    [json.dumps] of the envelope when a key or an index of the path is
    missing, and raises only when the request fails or the path meets a
    value that cannot be subscripted; a missing key or index never comes out
    as [KeyError] or [IndexError]. *)
Theorem gemini_call_outcomes cfg key prompt_text encoded_image max_tokens w :
  GEMINI_API_KEY cfg = Some key ->
  let req := gemini_request key prompt_text encoded_image max_tokens in
  let answer := fst (http req (servers w)) in
  exists r,
    gemini cfg prompt_text encoded_image max_tokens w =
    (r, {| servers := snd (http req (servers w)); sent := sent w ++ [req] |}) /\
    r <> Raise KeyError /\ r <> Raise IndexError /\
    (forall data t, answer = JsonBody data -> candidate_text data = Ok t -> r = Ok t) /\
    (forall data, answer = JsonBody data ->
       candidate_text data = Raise KeyError \/ candidate_text data = Raise IndexError ->
       r = Ok (PStr (json_dumps data))) /\
    (forall data, answer = JsonBody data -> candidate_text data = Raise TypeError ->
       r = Raise TypeError) /\
    (forall m, answer = TransportFailure m \/ answer = HttpErrorStatus m
               \/ answer = InvalidBody m ->
       r = Raise (RequestsError m)).
Proof.
  intros Hkey req answer.
  unfold direct_gemini_api_call. rewrite Hkey.
  fold (gemini_request key prompt_text encoded_image max_tokens). fold req.
  unfold bind, send, ret, raise. subst answer.
  destruct (http req (servers w)) as [[m|m|m|data] n]; cbn [fst snd];
    [finish_outcome | finish_outcome | finish_outcome |].
  destruct (candidate_text data) as [t|e] eqn:E; [finish_outcome|].
  destruct (candidate_text_raises _ E) as [-> | [-> | ->]]; finish_outcome.
Qed.

End GeminiCall.

Lemma gemini_call_outcomes_witness :
  GEMINI_API_KEY sample_cfg = Some (lit "g-key") /\
  direct_gemini_api_call
    (reply_http (JsonBody (PDict [(lit "candidates", PList [])])))
    (fun _ => lit "{}") sample_cfg (lit "hello") None 2000 sample_world
  = (Ok (PStr (lit "{}")),
     sample_world_after [gemini_request (lit "g-key") (lit "hello") None 2000]).
Proof.
  split; [reflexivity|].
  destruct (@gemini_call_outcomes unit
              (reply_http (JsonBody (PDict [(lit "candidates", PList [])])))
              (fun _ => lit "{}") sample_cfg (lit "g-key") (lit "hello") None 2000
              sample_world eq_refl)
    as (r & Hcall & _ & _ & _ & Hdumps & _).
  rewrite Hcall. f_equal.
  apply (Hdumps (PDict [(lit "candidates", PList [])]) eq_refl).
  right. reflexivity.
Defined.

(** ** The requests of a run *)

Section RequestsOfARun.

Variable net : Type.
Variable http : request -> net -> reply * net.
Variable json_dumps : pyval -> pystr.
Variable textwrap_dedent : pystr -> pystr.
Variable builtin_str : exn -> pystr.

Local Notation generate := (generate_recommendations http json_dumps textwrap_dedent).
Local Notation gemini := (direct_gemini_api_call http json_dumps).
Local Notation worker_run := (run http json_dumps textwrap_dedent builtin_str).
Local Notation fetch := (fetch_imdb_info http).
Local Notation resolve := (resolve_titles http).

Lemma omdb_requests_cons cfg t rest :
  omdb_requests cfg (t :: rest) = omdb_requests cfg [t] ++ omdb_requests cfg rest.
Proof. unfold omdb_requests. now destruct (OMDB_API_KEY cfg). Qed.

Lemma omdb_requests_length cfg titles :
  (List.length (omdb_requests cfg titles) <= List.length titles)%nat.
Proof.
  unfold omdb_requests. destruct (OMDB_API_KEY cfg); simpl; [|lia].
  now rewrite length_map.
Qed.

Lemma fetch_sent cfg t w :
  sent (snd (fetch cfg t w)) = sent w ++ omdb_requests cfg [t].
Proof.
  unfold omdb_requests. destruct (OMDB_API_KEY cfg) as [key|] eqn:Hkey.
  - now rewrite fetch_with_key with (key := key).
  - unfold fetch_imdb_info. rewrite Hkey. simpl. now rewrite app_nil_r.
Qed.

(** The loop of [run] sends the lookups of its titles, one after the other,
    and nothing else. *)
Lemma resolve_sent cfg excluded titles : forall results w,
  sent (snd (resolve cfg excluded titles results w))
  = sent w ++ omdb_requests cfg titles.
Proof.
  induction titles as [|t rest IH]; intros results w.
  - simpl. unfold omdb_requests. destruct (OMDB_API_KEY cfg); simpl;
      now rewrite app_nil_r.
  - rewrite omdb_requests_cons, app_assoc, <- fetch_sent.
    destruct (fetch_never_raises http cfg t w) as (info & w1 & Hf).
    cbn [resolve_titles]. unfold bind. rewrite Hf. cbn [snd].
    destruct info as [i|]; [destruct (keeps excluded (Some i))|]; apply IH.
Qed.

(** X6. A run over a non-empty list of pre-defined titles always ends with
    a page, never with an error; it sends no request to Gemini, only the
    lookups of those titles in their order (none without an OMDb key), and
    the page is no longer than the list. *)
Theorem pre_defined_run_only_looks_up cfg self w t ts :
  pre_defined_titles self = Some (t :: ts) ->
  exists page w',
    worker_run cfg self w = (finished page, w') /\
    sent w' = sent w ++ omdb_requests cfg (t :: ts) /\
    (List.length page <= List.length (t :: ts))%nat.
Proof.
  intros Hpre. unfold run, bind. rewrite Hpre. unfold ret.
  pose proof (resolve_sent cfg (excluded_ids self) (t :: ts) [] w) as Hsent.
  destruct (resolve_titles_lookups http cfg (excluded_ids self) (t :: ts) [] w)
    as (w' & Hres).
  rewrite Hres in Hsent |- *. cbn [snd] in Hsent.
  eexists _, w'. split; [reflexivity|]. split; [exact Hsent|].
  cbn [Datatypes.app].
  rewrite <- (lookups_length http cfg (t :: ts) w). apply kept_length.
Qed.

(** X13. The titles that [update_quick_filters] makes of a query string are
    trimmed and there is always at least one, so a worker that is given them
    never calls the Generator: its run ends with a page and sends only the
    lookups of those titles. *)
Theorem quick_filter_run_skips_generator cfg self w query_string :
  pre_defined_titles self = Some (quick_filter_titles query_string) ->
  Forall (fun t => Py.strip t = t) (quick_filter_titles query_string) /\
  exists page w',
    worker_run cfg self w = (finished page, w') /\
    sent w' = sent w ++ omdb_requests cfg (quick_filter_titles query_string).
Proof.
  intros Hpre. split.
  - unfold quick_filter_titles. apply Forall_map, Forall_forall.
    intros x _. apply strip_idem.
  - destruct (quick_filter_titles query_string) as [|t ts] eqn:E.
    + unfold quick_filter_titles, Py.split in E.
      apply map_eq_nil in E. now apply split_from_not_nil in E.
    + unfold run, bind. rewrite Hpre. unfold ret.
      pose proof (resolve_sent cfg (excluded_ids self) (t :: ts) [] w) as Hsent.
      destruct (resolve_titles_lookups http cfg (excluded_ids self) (t :: ts) [] w)
        as (w' & Hres).
      rewrite Hres in Hsent |- *. eauto.
Qed.

Lemma gemini_sent cfg key prompt_text w :
  GEMINI_API_KEY cfg = Some key ->
  sent (snd (gemini cfg prompt_text None 2000%Z w))
  = sent w ++ [gemini_request key prompt_text None 2000].
Proof.
  intros Hkey. unfold direct_gemini_api_call. rewrite Hkey.
  fold (gemini_request key prompt_text None 2000).
  unfold bind, send, ret, raise.
  destruct (http _ (servers w)) as [[m|m|m|data] n]; cbn [snd sent]; auto.
  destruct (candidate_text data) as [x|[]]; reflexivity.
Qed.

(** What the Generator sends and how many titles it returns. *)
Lemma generate_sent cfg q st ex w :
  exists posts,
    sent (snd (generate cfg q st ex w)) = sent w ++ posts /\
    (List.length posts <= 1)%nat /\
    Forall (fun r => is_GET r = false) posts /\
    forall titles, fst (generate cfg q st ex w) = Ok titles ->
      (List.length titles
       <= Nat.max 1 (Z.to_nat (GLOBAL_SUGGESTION_COUNT cfg)))%nat.
Proof.
  destruct (GEMINI_API_KEY cfg) as [key|] eqn:Hkey.
  - rewrite generate_with_key with (key := key) by assumption.
    set (prompt := prompt_of _ _ _ _ _).
    pose proof (gemini_sent cfg prompt w Hkey) as Hsent.
    destruct (gemini cfg prompt None 2000%Z w) as [[raw|e] w1]; cbn [fst snd] in *.
    + eexists. split; [exact Hsent|]. split; [simpl; lia|].
      split; [repeat constructor|].
      intros titles Hparse.
      pose proof (collect_titles_length (GLOBAL_SUGGESTION_COUNT cfg)) as Hlen.
      unfold parse_response in Hparse.
      destruct raw as [| | |s| |]; try discriminate.
      cbn [Value.splitlines rbind] in Hparse.
      specialize (Hlen (stripped_lines (Py.splitlines s)) []).
      destruct (collect_titles _ [] _); [discriminate|].
      injection Hparse as <-. simpl in *. lia.
    + eexists. split; [exact Hsent|]. split; [simpl; lia|].
      split; [repeat constructor|]. discriminate.
  - unfold generate_recommendations. rewrite Hkey. unfold raise. cbn [fst snd].
    exists []. rewrite app_nil_r. repeat split; auto; discriminate.
Qed.

(** X7. A run without pre-defined titles sends at most one request to
    Gemini, before anything else, and then only lookups, at most as many as
    the suggestion count (as one when the count is below one); this holds
    whether the run ends with a page or with an error. *)
Theorem generated_run_request_budget cfg self w :
  pre_defined_titles self = None \/ pre_defined_titles self = Some [] ->
  exists posts titles,
    sent (snd (worker_run cfg self w))
    = sent w ++ posts ++ omdb_requests cfg titles /\
    (List.length posts <= 1)%nat /\
    Forall (fun r => is_GET r = false) posts /\
    (List.length titles
     <= Nat.max 1 (Z.to_nat (GLOBAL_SUGGESTION_COUNT cfg)))%nat.
Proof.
  intros Hpre.
  destruct (generate_sent cfg (query_text self) (search_type self)
              (excluded_ids self) w) as (posts & Hsent & Hone & Hpost & Hcount).
  exists posts.
  assert (worker_run cfg self w =
          match generate cfg (query_text self) (search_type self)
                  (excluded_ids self) w with
          | (Ok titles, w1) =>
              match resolve cfg (excluded_ids self) titles [] w1 with
              | (Ok results, w') => (finished results, w')
              | (Raise e, w') => (error (str_exn builtin_str e), w')
              end
          | (Raise e, w1) => (error (str_exn builtin_str e), w1)
          end) as ->.
  { unfold run, bind.
    destruct Hpre as [-> | ->];
      destruct (generate cfg _ _ _ w) as [[titles|e] w1]; reflexivity. }
  destruct (generate cfg _ _ _ w) as [[titles|e] w1]; cbn [fst snd] in *.
  - exists titles.
    pose proof (resolve_sent cfg (excluded_ids self) titles [] w1) as Hres.
    destruct (resolve cfg (excluded_ids self) titles [] w1) as [[results|e] w'];
      cbn [snd] in *; rewrite Hres, Hsent, <- app_assoc; auto.
  - exists []. rewrite Hsent.
    assert (omdb_requests cfg [] = []) as ->
      by (unfold omdb_requests; now destruct (OMDB_API_KEY cfg)).
    rewrite app_nil_r. repeat split; auto. simpl. lia.
Qed.

End RequestsOfARun.

Lemma pre_defined_run_only_looks_up_witness :
  exists page w',
    sample_run [] sample_cfg
      {| query_text := lit "Pre-defined 2 movies"; search_type := lit "movie";
         pre_defined_titles := Some [lit "Inception"; lit "Heat"];
         excluded_ids := [] |}
    = (finished page, w') /\
    sent w' = [sample_get (lit "Inception"); sample_get (lit "Heat")] /\
    (List.length page <= 2)%nat.
Proof.
  apply (@pre_defined_run_only_looks_up unit (sample_http []) (fun _ => [])
           (fun p => p) (fun _ => []) sample_cfg _ sample_world
           (lit "Inception") [lit "Heat"]).
  reflexivity.
Defined.

Lemma quick_filter_run_skips_generator_witness :
  quick_filter_titles (lit "Inception, Heat ,Arrival")
  = [lit "Inception"; lit "Heat"; lit "Arrival"] /\
  exists page w',
    sample_run [] sample_cfg
      {| query_text := lit "Pre-defined 3 movies"; search_type := lit "movie";
         pre_defined_titles := Some (quick_filter_titles (lit "Inception, Heat ,Arrival"));
         excluded_ids := [] |}
    = (finished page, w') /\
    sent w' = omdb_requests sample_cfg
                (quick_filter_titles (lit "Inception, Heat ,Arrival")).
Proof.
  split; [reflexivity|].
  apply (@quick_filter_run_skips_generator unit (sample_http []) (fun _ => [])
           (fun p => p) (fun _ => []) sample_cfg _ sample_world
           (lit "Inception, Heat ,Arrival")).
  reflexivity.
Defined.

Lemma generated_run_request_budget_witness :
  exists posts titles,
    sent (snd (sample_run two_titles_response sample_cfg (sample_worker [])))
    = posts ++ omdb_requests sample_cfg titles /\
    (List.length posts <= 1)%nat /\
    Forall (fun r => is_GET r = false) posts /\
    (List.length titles <= 10)%nat.
Proof.
  apply (@generated_run_request_budget unit (sample_http two_titles_response)
           (fun _ => []) (fun p => p) (fun _ => []) sample_cfg (sample_worker [])
           sample_world).
  left. reflexivity.
Defined.

(** ** One page after the other *)

Section Paging.

Variable net : Type.
Variable http : request -> net -> reply * net.
Variable json_dumps : pyval -> pystr.
Variable textwrap_dedent : pystr -> pystr.
Variable builtin_str : exn -> pystr.

Local Notation worker_run := (run http json_dumps textwrap_dedent builtin_str).

(** The list after [on_results_ready]: the list before, then the truthy ids
    of the results. *)
Lemma on_results_ready_app results : forall ids,
  on_results_ready ids results
  = ids ++ filter Value.truthy (map imdb_id results).
Proof.
  unfold on_results_ready.
  induction results as [|r rest IH]; intros ids; simpl.
  - now rewrite app_nil_r.
  - rewrite IH. destruct (Value.truthy (imdb_id r)); auto.
    now rewrite <- app_assoc.
Qed.

(** X8. When the exclusion list of a run is what [on_results_ready] made of
    an earlier run's list and page, no record of the new page has the id of a
    record of the earlier page, nor an id of the earlier list. *)
Theorem later_page_repeats_nothing cfg self1 w1 page1 w1' self2 w2 page2 w2' :
  worker_run cfg self1 w1 = (finished page1, w1') ->
  worker_run cfg self2 w2 = (finished page2, w2') ->
  map PStr (excluded_ids self2)
  = on_results_ready (map PStr (excluded_ids self1)) page1 ->
  forall r2, In r2 page2 ->
    (forall r1, In r1 page1 -> imdb_id r2 <> imdb_id r1) /\
    (forall id, In id (excluded_ids self1) -> imdb_id r2 <> PStr id).
Proof.
  intros Hrun1 Hrun2 Hids r2 Hr2.
  rewrite on_results_ready_app in Hids.
  pose proof (page_records_kept _ _ _ _ _ _ _ Hrun2 r2 Hr2) as Hkeep2.
  apply keeps_outside in Hkeep2 as [_ Hout].
  assert (forall v, In v (map PStr (excluded_ids self2)) -> imdb_id r2 <> v) as Hnot.
  { intros v (id & <- & Hid)%in_map_iff. now apply Hout. }
  rewrite Hids in Hnot. split.
  - intros r1 Hr1. apply Hnot. apply in_or_app. right.
    apply filter_In. split; [now apply in_map|].
    pose proof (page_records_kept _ _ _ _ _ _ _ Hrun1 r1 Hr1) as Hkeep1.
    now apply keeps_outside in Hkeep1 as [Ht _].
  - intros id Hid. apply Hnot. apply in_or_app. left. now apply in_map.
Qed.

End Paging.

Lemma later_page_repeats_nothing_witness :
  paging_run (sample_worker []) 0
  = (finished [inception_info],
     {| servers := 1%nat; sent := [sample_post; sample_get (lit "Inception")] |}) /\
  fst (paging_run (sample_worker [lit "tt1375666"]) 1) = finished [arrival_info] /\
  imdb_id arrival_info <> imdb_id inception_info.
Proof.
  split; [reflexivity|]. split; [reflexivity|].
  refine (proj1 (@later_page_repeats_nothing nat paging_http (fun _ => [])
                   (fun p => p) (fun _ => []) sample_cfg
                   (sample_worker []) {| servers := 0%nat; sent := [] |}
                   [inception_info] _
                   (sample_worker [lit "tt1375666"]) {| servers := 1%nat; sent := [] |}
                   [arrival_info] _ eq_refl eq_refl eq_refl
                   arrival_info (or_introl eq_refl))
            inception_info (or_introl eq_refl)).
Defined.

(** ** Keys and settings after a reload *)

Section ReloadProperties.

Variable int_of_str : pystr -> option Z.

Local Notation load_config := (_load_config int_of_str).
Local Notation reload := (_setup_cwd_and_load_keys int_of_str).

Lemma field_or_idem d k v :
  Value.field_or d k (Value.field_or d k v) = Value.field_or d k v.
Proof. unfold Value.field_or. now destruct (Value.lookup d k). Qed.

(** What [_load_config] makes of a dict whose count can be read. *)
Lemma load_config_dict d n g :
  py_int int_of_str (Value.field_or d (lit "suggestion_count") (PInt 10)) = Some n ->
  load_config (ConfigJson (PDict d)) g =
  {| suggestion_count := load_suggestion_count n;
     movie_color := Value.field_or d (lit "movie_color") (movie_color g);
     show_color := Value.field_or d (lit "show_color") (show_color g);
     neon_pink := Value.field_or d (lit "neon_pink") (neon_pink g);
     neon_blue := Value.field_or d (lit "neon_blue") (neon_blue g) |}.
Proof.
  intros Hn. unfold _load_config. cbn [Value.get]. now rewrite Hn.
Qed.

(** Everything else leaves the settings as they are. *)
Lemma load_config_unchanged f g :
  (forall d n, f = ConfigJson (PDict d) ->
     py_int int_of_str (Value.field_or d (lit "suggestion_count") (PInt 10))
     <> Some n) ->
  load_config f g = g.
Proof.
  intros H. destruct f as [| |config]; auto.
  destruct config as [| | | | |d]; auto.
  unfold _load_config. cbn [Value.get].
  destruct (py_int int_of_str _) as [n|] eqn:E; auto.
  exfalso. eapply H; eauto.
Qed.

Lemma load_config_cases f g :
  load_config f g = g \/
  exists d n,
    f = ConfigJson (PDict d) /\
    py_int int_of_str (Value.field_or d (lit "suggestion_count") (PInt 10)) = Some n /\
    load_config f g =
    {| suggestion_count := load_suggestion_count n;
       movie_color := Value.field_or d (lit "movie_color") (movie_color g);
       show_color := Value.field_or d (lit "show_color") (show_color g);
       neon_pink := Value.field_or d (lit "neon_pink") (neon_pink g);
       neon_blue := Value.field_or d (lit "neon_blue") (neon_blue g) |}.
Proof.
  destruct f as [| |config]; auto.
  destruct config as [| | | | |d]; auto.
  destruct (py_int int_of_str (Value.field_or d (lit "suggestion_count") (PInt 10)))
    as [n|] eqn:E.
  - right. exists d, n. auto using load_config_dict.
  - left. apply load_config_unchanged. intros d' n' [= <-]. congruence.
Qed.

(** Loading the same configuration file a second time changes nothing: what
    the first load left as it was stays, what it set is set to the same
    value. *)
Lemma load_config_idem f g :
  load_config f (load_config f g) = load_config f g.
Proof.
  destruct (load_config_cases f g) as [Hsame | (d & n & -> & Hn & Hload)].
  - now rewrite !Hsame.
  - rewrite Hload, (load_config_dict _ _ Hn). cbn.
    now rewrite !field_or_idem.
Qed.

Lemma fold_left_invariant {A B} (P : A -> Prop) (f : A -> B -> A) l : forall a,
  P a -> (forall a b, P a -> P (f a b)) -> P (fold_left f l a).
Proof.
  induction l as [|b l IH]; intros a Ha Hstep; simpl; auto.
Qed.

(** X9. Whatever configuration directories are loaded, one after the other,
    from the first read of the module on, and whatever their files hold, the
    suggestion count stays between 1 and 20, and the count the pipeline reads
    is the one [_load_config] keeps. *)
Theorem count_stays_in_range dirs :
  let st := after_reloads int_of_str dirs in
  (1 <= GLOBAL_SUGGESTION_COUNT (fst st) <= 20)%Z /\
  suggestion_count (snd st) = GLOBAL_SUGGESTION_COUNT (fst st).
Proof.
  unfold after_reloads. apply fold_left_invariant.
  - simpl. unfold default_suggestion_count. lia.
  - intros [cfg g] [d|] [Hrange Heq]; cbn [_setup_cwd_and_load_keys fst snd] in *;
      [|auto]. split; [|reflexivity].
    cbn [GLOBAL_SUGGESTION_COUNT].
    destruct (load_config_cases (config_json d) g) as [-> | (d' & n & _ & _ & ->)].
    + lia.
    + cbn. unfold load_suggestion_count. lia.
Qed.

Lemma read_key_content_stripped f :
  Py.strip (_read_key_content f) = _read_key_content f.
Proof. destruct f; simpl; auto. apply strip_idem. Qed.

Lemma key_or_missing_some content key :
  key_or_missing content = Some key -> key = content /\ key <> [].
Proof.
  destruct content; simpl; [discriminate|]. intros [= <-]. split; [auto|discriminate].
Qed.

(** X11. After any such loads, a key that is configured is never empty and
    has no white space around it. *)
Theorem configured_keys_are_trimmed dirs key :
  let cfg := fst (after_reloads int_of_str dirs) in
  GEMINI_API_KEY cfg = Some key \/ OMDB_API_KEY cfg = Some key ->
  key <> [] /\ Py.strip key = key.
Proof.
  intros cfg. subst cfg. revert key. unfold after_reloads.
  apply fold_left_invariant with
    (P := fun st => forall key,
            GEMINI_API_KEY (fst st) = Some key \/ OMDB_API_KEY (fst st) = Some key ->
            key <> [] /\ Py.strip key = key).
  - simpl. intros key [H|H]; discriminate.
  - intros [cfg g] [d|] IH key; cbn [_setup_cwd_and_load_keys fst]; [|apply IH].
    cbn [GEMINI_API_KEY OMDB_API_KEY].
    intros [H|H]; apply key_or_missing_some in H as [-> Hne];
      (split; [exact Hne | apply read_key_content_stripped]).
Qed.

Lemma lstrip_nil_iff s : Py.lstrip s = [] <-> Forall (fun c => Py.isspace c = true) s.
Proof.
  induction s as [|c t IH]; simpl; [split; auto|].
  destruct (Py.isspace c) eqn:E.
  - rewrite IH. split; [now constructor | now inversion 1].
  - split; [discriminate|]. inversion 1; congruence.
Qed.

Lemma rstrip_nil_iff s : Py.rstrip s = [] <-> Forall (fun c => Py.isspace c = true) s.
Proof.
  induction s as [|c t IH]; simpl; [split; auto|].
  destruct (Py.rstrip t) as [|r rs].
  - destruct (Py.isspace c) eqn:E.
    + split; [intros _; constructor; auto; now apply IH | auto].
    + split; [discriminate|]. inversion 1; congruence.
  - split; [discriminate|]. inversion 1 as [|? ? _ Ht]; subst.
    apply IH in Ht. discriminate.
Qed.

Lemma strip_nil_iff s : Py.strip s = [] <-> Forall (fun c => Py.isspace c = true) s.
Proof.
  unfold Py.strip. rewrite rstrip_nil_iff. split.
  - intros H. apply lstrip_nil_iff.
    pose proof (lstrip_head s) as Hhead.
    destruct (Py.lstrip s) as [|c t]; auto.
    inversion H; congruence.
  - intros H. apply lstrip_nil_iff in H. rewrite H. constructor.
Qed.

(** X12. After a load of a directory, a key is missing exactly when its
    file is absent, cannot be read, or holds nothing but white space. *)
Theorem key_missing_iff_blank d st :
  let cfg := fst (_setup_cwd_and_load_keys int_of_str (Some d) st) in
  let blank f :=
    match f with
    | KeyFileText content => Forall (fun c => Py.isspace c = true) content
    | _ => True
    end in
  (GEMINI_API_KEY cfg = None <-> blank (gemini_api_key_txt d)) /\
  (OMDB_API_KEY cfg = None <-> blank (omdb_api_key_txt d)).
Proof.
  cbn [_setup_cwd_and_load_keys fst GEMINI_API_KEY OMDB_API_KEY].
  assert (forall f, key_or_missing (_read_key_content f) = None <->
                    match f with
                    | KeyFileText content =>
                        Forall (fun c => Py.isspace c = true) content
                    | _ => True
                    end) as H.
  { intros [| |content]; simpl; try tauto.
    rewrite <- strip_nil_iff.
    destruct (Py.strip content); simpl; split; congruence. }
  split; apply H.
Qed.

(** X10. Loading the same files a second time changes nothing more, neither
    for the whole of [_setup_cwd_and_load_keys] nor for [_load_config] alone
    (as [_save_config] calls it): the keys and every setting are what the
    first load made them. *)
Theorem reload_twice dir st f g :
  _setup_cwd_and_load_keys int_of_str dir (_setup_cwd_and_load_keys int_of_str dir st)
  = _setup_cwd_and_load_keys int_of_str dir st /\
  _load_config int_of_str f (_load_config int_of_str f g)
  = _load_config int_of_str f g.
Proof.
  split; [|apply load_config_idem].
  destruct dir as [d|]; [|reflexivity].
  destruct st as [cfg s]. cbn [_setup_cwd_and_load_keys fst snd].
  now rewrite load_config_idem.
Qed.

End ReloadProperties.

Lemma configured_keys_are_trimmed_witness :
  fst (after_reloads (fun _ => None) [Some sample_dir; None])
  = {| GEMINI_API_KEY := Some (lit "g-key"); OMDB_API_KEY := None;
       GLOBAL_SUGGESTION_COUNT := 20 |} /\
  lit "g-key" <> [] /\ Py.strip (lit "g-key") = lit "g-key".
Proof.
  split; [reflexivity|].
  apply (@configured_keys_are_trimmed (fun _ => None) [Some sample_dir; None]
           (lit "g-key")).
  left. reflexivity.
Defined.
